(** * ASTra example programs: the numeric routines of [examples/]

    A shallow embedding of [examples/complex_sample.c] (statistics over a
    [DataSet]) and [examples/example.c] (factorial, primality test,
    four-function calculator), with the properties the specification states
    about them.

    Conventions of the embedding:
    - a C [int] is a [Z] in the range of a 32-bit two's-complement integer;
      arithmetic that can leave the range wraps around ([CInt.wrap]), the
      behaviour of the usual targets;
    - a C [double] is an IEEE 754 binary64 number ([PrimFloat.float]), with
      the operations rounding to nearest;
    - an array is the list of its initialised elements; reading past them has
      no defined value and makes the routine return [None];
    - [printf] appends its format string and arguments to the output stream,
      which is threaded through the routines that print;
    - [pow] comes from the C library and is a parameter of the routines that
      call it. *)

From Stdlib Require Import ZArith Znumtheory List String Ascii Bool Lia.
From Stdlib Require Import Floats.PrimFloat Numbers.Cyclic.Int63.Uint63.
From Stdlib Require Import Floats.SpecFloat Floats.FloatOps Floats.FloatAxioms.
From Equations Require Import Equations.
Import ListNotations.

#[local] Set Warnings "-inexact-float".
#[local] Open Scope Z_scope.

(** ** 32-bit signed integers *)

Module CInt.

Definition INT_MIN : Z := - 2 ^ 31.
Definition INT_MAX : Z := 2 ^ 31 - 1.

Definition in_range (z : Z) : Prop := INT_MIN <= z <= INT_MAX.

(** The representative of [z] modulo [2^32] in the signed range. *)
Definition wrap (z : Z) : Z := (z + 2 ^ 31) mod 2 ^ 32 - 2 ^ 31.

Definition add (a b : Z) : Z := wrap (a + b).
Definition sub (a b : Z) : Z := wrap (a - b).
Definition mul (a b : Z) : Z := wrap (a * b).

(** [a % b]: the remainder of the division that truncates towards zero. *)
Definition rem (a b : Z) : Z := Z.rem a b.

#[global] Arguments wrap : simpl never.

End CInt.

(** ** Doubles *)

Module CDouble.

#[local] Open Scope float_scope.

(** Conversion of an [int] to [double]; exact, as [|z| <= 2^31 < 2^53]. *)
Definition of_int (z : Z) : float :=
  if (z <? 0)%Z then - PrimFloat.of_uint63 (Uint63.of_Z (- z))
  else PrimFloat.of_uint63 (Uint63.of_Z z).

(** [a != b] *)
Definition ne (a b : float) : bool := negb (a =? b).

(** [a > b] *)
Definition gt (a b : float) : bool := b <? a.

(** [|x - y| <= tol]: agreement of two doubles up to a tolerance. *)
Definition approx (tol x y : float) : bool := abs (x - y) <=? tol.

End CDouble.

(** ** Standard output *)

Module Stdio.

Inductive arg : Type :=
| AInt (z : Z)
| ADouble (d : float)
| AChar (c : ascii).

(** One call of [printf]: the format string and the arguments. *)
Record call : Type := Printf { format : string; args : list arg }.

Definition stdout : Type := list call.

(** A computation that prints: it takes the output written so far, and,
    unless it reads a value that is not defined, gives a result and the
    output extended. *)
Definition IO (A : Type) : Type := stdout -> option (A * stdout).

Definition ret {A} (a : A) : IO A := fun out => Some (a, out).

Definition bind {A B} (m : IO A) (k : A -> IO B) : IO B :=
  fun out =>
    match m out with
    | Some (a, out') => k a out'
    | None => None
    end.

(** Lifts a value that may be undefined. *)
Definition defined {A} (o : option A) : IO A :=
  fun out =>
    match o with
    | Some a => Some (a, out)
    | None => None
    end.

Definition printf (fmt : string) (l : list arg) : IO unit :=
  fun out => Some (tt, out ++ [Printf fmt l]).

(** What a computation prints when started on an empty stream. *)
Definition printed {A} (m : IO A) : option stdout :=
  match m [] with
  | Some (_, out) => Some out
  | None => None
  end.

(** The line feed that ends the format strings. *)
Definition nl : string := String (ascii_of_nat 10) EmptyString.

(** The result of a computation that prints, and what it prints, are the
    same whatever has been printed before. *)
Definition independent_of_output {A : Type} (m : IO A) : Prop :=
  (exists (a : A) (printed : stdout),
      forall out, m out = Some (a, out ++ printed))
  \/ (forall out, m out = None).

End Stdio.

Declare Scope io_scope.
Delimit Scope io_scope with io.
Notation "x <- m ;; k" := (Stdio.bind m (fun x => k))
  (at level 100, m at next level, right associativity) : io_scope.
Notation "' pat <- m ;; k" := (Stdio.bind m (fun x => match x with pat => k end))
  (at level 100, pat pattern, m at next level, right associativity) : io_scope.
Notation "m ;;; k" := (Stdio.bind m (fun _ => k))
  (at level 100, right associativity) : io_scope.

(** ** The C library's [pow] *)

Module Libm.

#[local] Open Scope float_scope.

(** [pow(x, 2)] is the correctly rounded square, that is the product
    [x * x] of doubles. *)
Definition exact_square (pow : float -> float -> float) : Prop :=
  forall x, pow x 2 = x * x.

(** [pow(2, 3)], a power that is a double, is returned exactly. *)
Definition exact_2_3 (pow : float -> float -> float) : Prop :=
  pow 2 3 = 8.

(** A function with both properties: the powers by repeated products for
    the exponents 2 and 3, not a number elsewhere. *)
Definition pow_2_3 (x y : float) : float :=
  if y =? 2 then x * x
  else if y =? 3 then x * x * x
  else nan.

End Libm.

(** ** [examples/complex_sample.c] *)

Module complex_sample.

Import Stdio.
#[local] Open Scope float_scope.
#[local] Open Scope string_scope.

Definition MAX_SIZE : Z := 50.
Definition THRESHOLD : float := 10.5.

(** [values] holds the elements of the array that have been assigned, at
    most [MAX_SIZE] of them. *)
Record DataSet : Type := mkDataSet {
  id : Z;
  values : list float;
  average : float;
  variance : float
}.

(** [arr[i]] *)
Definition index (arr : list float) (i : Z) : option float :=
  if (i <? 0)%Z then None else nth_error arr (Z.to_nat i).

(** The loop of [calculate_mean], entered with index [i] and accumulator
    [sum].  As [i < n <= INT_MAX] in the body, [i++] does not overflow. *)
Equations? mean_loop (arr : list float) (n i : Z) (sum : float)
  : option float by wf (Z.to_nat (n - i)) lt :=
  mean_loop arr n i sum with Z_lt_dec i n => {
    | left _ with index arr i => {
        | Some x => mean_loop arr n (i + 1) (sum + x)
        | None => None }
    | right _ => Some sum }.
Proof. lia. Defined.

Definition calculate_mean (arr : list float) (n : Z) : option float :=
  match mean_loop arr n 0 0 with
  | Some sum => Some (sum / CDouble.of_int n)
  | None => None
  end.

(** The selection on the threshold that ends [process_data]: the status
    line it prints for a variance. *)
Definition high_variability : string :=
  "Stato: Alta variabilita' rilevata." ++ nl.
Definition normal_variability : string :=
  "Stato: Variabilita' nella norma." ++ nl.

Definition classify (variance : float) : string :=
  if CDouble.gt variance THRESHOLD then high_variability
  else normal_variability.

Definition insufficient_data : string :=
  "Errore: Dati insufficienti per l'analisi statistica." ++ nl.

(** The [while (k < 3)] loop of [main]. *)
Equations? main_loop (k : Z) : IO unit by wf (Z.to_nat (3 - k)) lt :=
  main_loop k with Z_lt_dec k 3 => {
    | left _ =>
        ((if (k =? 0)%Z then
            printf ("Step di inizializzazione completato." ++ nl) []
          else if (k =? 1)%Z then
            printf ("Verifica integrita' memoria..." ++ nl) []
          else
            printf ("Processo terminato con successo." ++ nl) []) ;;;
         main_loop (k + 1))%io
    | right _ => ret tt }.
Proof. change (Z.to_nat (3 - (k + 1)) < Z.to_nat (3 - k))%nat. lia. Defined.

(** The count and the five elements that [main] assigns. *)
Definition sample_count : Z := 5.
Definition sample_values : list float := [12.5; 15.2; 9.8; 11.0; 14.5].

Section WithPow.

(** [pow] of the C library. *)
Variable pow : float -> float -> float.

(** The loop of [calculate_variance]. *)
Equations? variance_loop (arr : list float) (n : Z) (mean : float)
  (j : Z) (sum_sq_diff : float)
  : option float by wf (Z.to_nat (n - j)) lt :=
  variance_loop arr n mean j sum_sq_diff with Z_lt_dec j n => {
    | left _ with index arr j => {
        | Some x =>
            let diff := x - mean in
            variance_loop arr n mean (j + 1) (sum_sq_diff + pow diff 2)
        | None => None }
    | right _ => Some sum_sq_diff }.
Proof. lia. Defined.

Definition calculate_variance (arr : list float) (n : Z) (mean : float)
  : option float :=
  match variance_loop arr n mean 0 0 with
  | Some sum_sq_diff => Some (sum_sq_diff / CDouble.of_int (CInt.sub n 1))
  | None => None
  end.

(** [process_data(&data, count)]: the result is the [DataSet] as the call
    leaves it. *)
Definition process_data (data : DataSet) (count : Z) : IO DataSet :=
  if (count <=? 1)%Z then
    (printf insufficient_data [] ;;;
     ret data)%io
  else
    (avg <- defined (calculate_mean (values data) count) ;;
     let data := mkDataSet (id data) (values data) avg (variance data) in
     var <- defined (calculate_variance (values data) count (average data)) ;;
     let data := mkDataSet (id data) (values data) (average data) var in
     printf ("Analisi ID: %d" ++ nl) [AInt (id data)] ;;;
     printf ("Media Calcolata: %.4f" ++ nl) [ADouble (average data)] ;;;
     printf ("Varianza: %.4f" ++ nl) [ADouble (variance data)] ;;;
     printf (classify (variance data)) [] ;;;
     ret data)%io.

(** [main]; [average0] and [variance0] stand for the contents of the two
    fields of [myData] that [main] does not assign. *)
Definition main (average0 variance0 : float) : IO Z :=
  let myData := mkDataSet 101 sample_values average0 variance0 in
  (_ <- process_data myData sample_count ;;
   main_loop 0 ;;;
   ret 0%Z)%io.

End WithPow.

End complex_sample.

(** ** [examples/example.c] *)

Module example.

Import Stdio.
#[local] Open Scope string_scope.

Definition MAX_SIZE : Z := 100.

(** The recursion ends because [n - 1], also when wrapped, is below [n]
    for [n > 1]. *)
#[local] Opaque CInt.wrap.
Equations? factorial (n : Z) : Z by wf (Z.to_nat n) lt :=
  factorial n with Z_le_gt_dec n 1 => {
    | left _ => 1
    | right _ => CInt.mul n (factorial (CInt.sub n 1)) }.
Proof.
  unfold CInt.sub. with_strategy transparent [CInt.wrap] unfold CInt.wrap.
  pose proof (Z.mod_pos_bound (n - 1 + 2 ^ 31) (2 ^ 32) eq_refl).
  pose proof (Z.mod_le (n - 1 + 2 ^ 31) (2 ^ 32)).
  lia.
Defined.
#[local] Transparent CInt.wrap.

(** The [for] loop of [is_prime], entered with divisor [i]; [fuel] bounds
    the number of iterations. *)
Fixpoint is_prime_loop (fuel : nat) (num i : Z) : option Z :=
  match fuel with
  | O => None
  | S fuel =>
      if (CInt.mul i i <=? num)%Z then
        if (CInt.rem num i =? 0)%Z then Some 0
        else is_prime_loop fuel num (CInt.add i 1)
      else Some 1
  end.

(** The loop is given [num] iterations, more than it takes
    ([is_prime_returns]). *)
Definition is_prime (num : Z) : option Z :=
  if (num <? 2)%Z then Some 0
  else is_prime_loop (Z.to_nat num) num 2.

(** What [scanf] converts from the input. *)
Inductive token : Type :=
| TInt (z : Z)
| TDouble (d : float)
| TChar (c : ascii).

(** [scanf("%d", &x)], [scanf("%lf", &x)] and [scanf(" %c", &x)]: the value
    stored and the rest of the input; when the conversion fails [x] is left
    without a defined value. *)
Definition scanf_d (stdin : list token) : option (Z * list token) :=
  match stdin with
  | TInt z :: rest => Some (z, rest)
  | _ => None
  end.

Definition scanf_lf (stdin : list token) : option (float * list token) :=
  match stdin with
  | TDouble d :: rest => Some (d, rest)
  | _ => None
  end.

Definition scanf_c (stdin : list token) : option (ascii * list token) :=
  match stdin with
  | TChar c :: rest => Some (c, rest)
  | _ => None
  end.

Definition division_by_zero : string := "Error: Division by zero!" ++ nl.
Definition invalid_operator : string := "Error: Invalid operator!" ++ nl.
Definition negative_factorial : string :=
  "Error: Factorial of negative number is undefined." ++ nl.

Section WithPow.

#[local] Open Scope float_scope.

(** [pow] of the C library. *)
Variable pow : float -> float -> float.

Definition calculate (a b : float) (op : ascii) : IO float :=
  if (op =? "+")%char then ret (a + b)
  else if (op =? "-")%char then ret (a - b)
  else if (op =? "*")%char then ret (a * b)
  else if (op =? "/")%char then
    if CDouble.ne b 0 then ret (a / b)
    else (printf division_by_zero [] ;;; ret 0)%io
  else if (op =? "^")%char then ret (pow a b)
  else (printf invalid_operator [] ;;; ret 0)%io.

Definition main (stdin : list token) : IO Z :=
  (printf ("=== Calculator Program ===" ++ nl) [] ;;;
   printf ("1. Factorial" ++ nl) [] ;;;
   printf ("2. Prime Check" ++ nl) [] ;;;
   printf ("3. Arithmetic Operations" ++ nl) [] ;;;
   printf "Enter your choice: " [] ;;;
   '(choice, stdin) <- defined (scanf_d stdin) ;;
   (if (choice =? 1)%Z then
      printf "Enter a number: " [] ;;;
      '(num1, stdin) <- defined (scanf_d stdin) ;;
      if (num1 <? 0)%Z then
        printf negative_factorial []
      else
        let result := factorial num1 in
        printf ("Factorial of %d is %d" ++ nl) [AInt num1; AInt result]
    else if (choice =? 2)%Z then
      printf "Enter a number: " [] ;;;
      '(num1, stdin) <- defined (scanf_d stdin) ;;
      p <- defined (is_prime num1) ;;
      if negb (p =? 0)%Z then
        printf ("%d is a prime number." ++ nl) [AInt num1]
      else
        printf ("%d is not a prime number." ++ nl) [AInt num1]
    else if (choice =? 3)%Z then
      printf "Enter first number: " [] ;;;
      '(d1, stdin) <- defined (scanf_lf stdin) ;;
      printf "Enter operator (+, -, *, /, ^): " [] ;;;
      '(operator, stdin) <- defined (scanf_c stdin) ;;
      printf "Enter second number: " [] ;;;
      '(d2, stdin) <- defined (scanf_lf stdin) ;;
      dresult <- calculate d1 d2 operator ;;
      printf ("Result: %.2f %c %.2f = %.2f" ++ nl)
        [ADouble d1; AChar operator; ADouble d2; ADouble dresult]
    else
      printf ("Invalid choice!" ++ nl) []) ;;;
   ret 0%Z)%io.

End WithPow.

End example.

(** * The notions of the specification *)

(** ** Statistics *)

Module StatisticsSpec.

Import Stdio complex_sample.
#[local] Open Scope float_scope.

(** The sum of a sequence, added from the left as the loops do. *)
Definition sum_of (l : list float) : float := fold_left PrimFloat.add l 0.

(** Arithmetic mean: the sum divided by the number of elements. *)
Definition arithmetic_mean (l : list float) : float :=
  sum_of l / CDouble.of_int (Z.of_nat (List.length l)).

(** Sum of the squared deviations from [mean]. *)
Definition sum_squared_deviations (mean : float) (l : list float) : float :=
  fold_left (fun s x => s + (x - mean) * (x - mean)) l 0.

(** Sample variance: that sum divided by the number of elements less one. *)
Definition sample_variance (mean : float) (l : list float) : float :=
  sum_squared_deviations mean l
  / CDouble.of_int (Z.of_nat (List.length l) - 1).

(** The sum of the squared deviations from [mean], each square taken as
    [pow] returns it. *)
Definition sum_squared_deviations_pow (pow : float -> float -> float)
  (mean : float) (l : list float) : float :=
  fold_left (fun s x => s + pow (x - mean) 2) l 0.

(** Sample variance with these squares. *)
Definition sample_variance_pow (pow : float -> float -> float)
  (mean : float) (l : list float) : float :=
  sum_squared_deviations_pow pow mean l
  / CDouble.of_int (Z.of_nat (List.length l) - 1).

(** [pow] returns the product [d * d] for the deviation [d] from [mean] of
    each element of [l]. *)
Definition exact_square_on (pow : float -> float -> float)
  (mean : float) (l : list float) : Prop :=
  forall x : float,
    In x l -> pow (x - mean) 2 = (x - mean) * (x - mean).

(** The status of a variance: high variability above the threshold 10.5,
    normal variability otherwise. *)
Definition status_line (v : float) : string :=
  if 10.5 <? v then "Stato: Alta variabilita' rilevata." ++ nl
  else "Stato: Variabilita' nella norma." ++ nl.

(** The lines of an analysis with identifier [ident], mean [m] and variance
    [v]: the identifier, the mean, the variance, the status of the
    variance. *)
Definition analysis_lines (ident : Z) (m v : float) : stdout :=
  [ Printf ("Analisi ID: %d" ++ nl) [AInt ident];
    Printf ("Media Calcolata: %.4f" ++ nl) [ADouble m];
    Printf ("Varianza: %.4f" ++ nl) [ADouble v];
    Printf (status_line v) [] ].

(** The first [n] elements of an array. *)
Definition prefix (arr : list float) (n : Z) : list float :=
  firstn (Z.to_nat n) arr.

(** What [process_data] prints for a mean [m] and a variance [v]. *)
Definition report (data : DataSet) (m v : float) : stdout :=
  [ Printf ("Analisi ID: %d" ++ nl) [AInt (id data)];
    Printf ("Media Calcolata: %.4f" ++ nl) [ADouble m];
    Printf ("Varianza: %.4f" ++ nl) [ADouble v];
    Printf (classify v) [] ].

(** The arrays [arr] and [arr'] hold the same first [n] elements. *)
Definition same_elements (arr arr' : list float) (n : Z) : Prop :=
  forall i : Z, (0 <= i < n)%Z -> index arr i = index arr' i.

(** The three lines of the [while] loop of [main]. *)
Definition steps : stdout :=
  [ Printf ("Step di inizializzazione completato." ++ nl) [];
    Printf ("Verifica integrita' memoria..." ++ nl) [];
    Printf ("Processo terminato con successo." ++ nl) [] ].

End StatisticsSpec.

(** ** Calculator *)

Module CalculatorSpec.

Import Stdio example.

(** The product [1 * 2 * ... * k] of integers. *)
Fixpoint product_upto (k : nat) : Z :=
  match k with
  | O => 1
  | S k' => Z.of_nat k * product_upto k'
  end.

(** The lines [main] prints before it reads the choice. *)
Definition menu : stdout :=
  [ Printf ("=== Calculator Program ===" ++ nl) [];
    Printf ("1. Factorial" ++ nl) [];
    Printf ("2. Prime Check" ++ nl) [];
    Printf ("3. Arithmetic Operations" ++ nl) [];
    Printf "Enter your choice: " [] ].

(** The square of a divisor up to 46340 is an [int]. *)
Definition sqrt_int_max : Z := 46340.

(** No integer from 2 on whose square is at most [num] divides [num]. *)
Definition no_divisor (num : Z) : Prop :=
  forall i, 2 <= i -> i * i <= num -> Z.rem num i <> 0.

(** Trial division of [num] by [k] consecutive integers from [j] on. *)
Fixpoint none_divides (num : Z) (k : nat) (j : Z) : bool :=
  match k with
  | O => true
  | S k' => negb (Z.rem num j =? 0) && none_divides num k' (j + 1)
  end.

(** The operators of [calculate]. *)
Definition operators : list ascii := ["+"; "-"; "*"; "/"; "^"]%char.

(** The prompts of the arithmetic choice of [main]. *)
Definition arithmetic_prompts : stdout :=
  [ Printf "Enter first number: " [];
    Printf "Enter operator (+, -, *, /, ^): " [];
    Printf "Enter second number: " [] ].

End CalculatorSpec.

(** * Properties *)

(** ** Arithmetic of [int] *)

Module CIntFacts.

Import CInt.

Lemma wrap_in_range z : in_range z -> wrap z = z.
Proof.
  unfold in_range, INT_MIN, INT_MAX, wrap. intros H.
  rewrite Z.mod_small; lia.
Qed.

Lemma wrap_range z : in_range (wrap z).
Proof.
  unfold in_range, INT_MIN, INT_MAX, wrap.
  pose proof (Z.mod_pos_bound (z + 2 ^ 31) (2 ^ 32) eq_refl). lia.
Qed.

Lemma wrap_wrap_mul a b : wrap (a * wrap b) = wrap (a * b).
Proof.
  unfold wrap. f_equal.
  replace (a * ((b + 2 ^ 31) mod 2 ^ 32 - 2 ^ 31) + 2 ^ 31)
    with (a * ((b + 2 ^ 31) mod 2 ^ 32) + (2 ^ 31 - a * 2 ^ 31)) by ring.
  rewrite Z.add_mod, Z.mul_mod_idemp_r, <- Z.add_mod by discriminate.
  f_equal. ring.
Qed.

End CIntFacts.

(** ** Comparison of doubles *)

Module CDoubleFacts.

#[local] Open Scope float_scope.

(** Exchanging the operands of a comparison reverses its outcome; a
    comparison with a NaN has none. *)
Lemma SFcompare_antisym x y :
  SFcompare y x = option_map CompOpp (SFcompare x y).
Proof.
  destruct x as [sx | sx | | sx mx ex], y as [sy | sy | | sy my ey];
    simpl; try reflexivity;
    try (destruct sx; reflexivity); try (destruct sy; reflexivity);
    try (destruct sx, sy; reflexivity).
  destruct sx, sy; try reflexivity;
    rewrite (Z.compare_antisym ex ey);
    destruct (ex ?= ey)%Z; simpl; try reflexivity;
    change (Pos.compare_cont Eq my mx) with (Pos.compare my mx);
    change (Pos.compare_cont Eq mx my) with (Pos.compare mx my);
    rewrite (Pos.compare_antisym mx my); destruct (mx ?= my)%positive;
    reflexivity.
Qed.

(** [x <= y] excludes [x > y]. *)
Lemma leb_not_gt x y : (x <=? y) = true -> CDouble.gt x y = false.
Proof.
  unfold CDouble.gt. rewrite leb_spec, ltb_spec.
  unfold SFleb, SFltb. rewrite (SFcompare_antisym (Prim2SF x) (Prim2SF y)).
  destruct (SFcompare (Prim2SF x) (Prim2SF y)) as [[| |] |];
    simpl; congruence.
Qed.

End CDoubleFacts.

(** ** The statistics of [complex_sample.c] *)

Module StatisticsFacts.

Import Stdio complex_sample StatisticsSpec.
#[local] Open Scope float_scope.

(** *** Reading an array *)

Lemma index_Some arr i :
  (0 <= i < Z.of_nat (List.length arr))%Z ->
  exists x, index arr i = Some x
            /\ skipn (Z.to_nat i) arr = x :: skipn (Z.to_nat (i + 1)) arr.
Proof.
  intros H. unfold index.
  destruct (Z.ltb_spec i 0) as [Hneg | _]; [lia |].
  replace (Z.to_nat (i + 1)) with (S (Z.to_nat i)) by lia.
  assert (Hlen : (Z.to_nat i < List.length arr)%nat) by lia.
  revert Hlen. generalize (Z.to_nat i) as k. clear H.
  induction arr as [| a arr IH]; intros k Hk; simpl in Hk; [lia |].
  destruct k as [| k].
  - exists a. split; reflexivity.
  - destruct (IH k) as [x [H1 H2]]; [lia |].
    exists x. split; [exact H1 | exact H2].
Qed.

Lemma prefix_length arr n :
  (0 <= n <= Z.of_nat (List.length arr))%Z ->
  Z.of_nat (List.length (prefix arr n)) = n.
Proof.
  intros H. unfold prefix. rewrite length_firstn. lia.
Qed.

(** *** The loops as folds *)

(** From index [i] on, the loop of [calculate_mean] adds the elements
    [arr[i]], ..., [arr[n-1]] to the accumulator, in this order. *)
Lemma mean_loop_fold arr n :
  (n <= Z.of_nat (List.length arr))%Z ->
  forall (k : nat) (i : Z) (sum : float),
    (0 <= i)%Z -> (n - i = Z.of_nat k)%Z ->
    mean_loop arr n i sum
    = Some (fold_left PrimFloat.add
              (firstn k (skipn (Z.to_nat i) arr)) sum).
Proof.
  intros Hn k. induction k as [| k IH]; intros i sum Hi Hk.
  - rewrite mean_loop_equation_1.
    destruct (Z_lt_dec i n) as [Hlt | Hge]; [lia |]. reflexivity.
  - rewrite mean_loop_equation_1.
    destruct (Z_lt_dec i n) as [Hlt | Hge]; [| lia]. simpl.
    destruct (index_Some arr i) as [x [Hx Hskip]]; [lia |].
    rewrite Hx, Hskip. simpl.
    apply IH; lia.
Qed.

Lemma calculate_mean_defined arr n :
  (0 <= n <= Z.of_nat (List.length arr))%Z ->
  calculate_mean arr n
  = Some (sum_of (prefix arr n) / CDouble.of_int n).
Proof.
  intros H. unfold calculate_mean.
  rewrite (mean_loop_fold arr n (proj2 H) (Z.to_nat n)) by lia.
  reflexivity.
Qed.

(** The loop reads [arr[i]], ..., [arr[n-1]] and nothing else. *)
Lemma mean_loop_reads arr arr' n :
  forall (k : nat) (i : Z) (sum : float),
    (n - i <= Z.of_nat k)%Z ->
    (forall j, (i <= j < n)%Z -> index arr j = index arr' j) ->
    mean_loop arr n i sum = mean_loop arr' n i sum.
Proof.
  intros k. induction k as [| k IH]; intros i sum Hk Hsame;
    rewrite (mean_loop_equation_1 arr), (mean_loop_equation_1 arr');
    destruct (Z_lt_dec i n) as [Hlt | Hge]; try lia; try reflexivity.
  simpl. rewrite <- (Hsame i) by lia.
  destruct (index arr i) as [x |]; simpl; [| reflexivity].
  apply IH; [lia |]. intros j Hj. apply Hsame. lia.
Qed.

Section WithPow.

Variable pow : float -> float -> float.

Lemma variance_loop_fold arr n mean :
  (n <= Z.of_nat (List.length arr))%Z ->
  forall (k : nat) (j : Z) (sum_sq_diff : float),
    (0 <= j)%Z -> (n - j = Z.of_nat k)%Z ->
    variance_loop pow arr n mean j sum_sq_diff
    = Some (fold_left (fun s x => s + pow (x - mean) 2)
              (firstn k (skipn (Z.to_nat j) arr)) sum_sq_diff).
Proof.
  intros Hn k. induction k as [| k IH]; intros j acc Hj Hk.
  - rewrite variance_loop_equation_1.
    destruct (Z_lt_dec j n) as [Hlt | Hge]; [lia |]. reflexivity.
  - rewrite variance_loop_equation_1.
    destruct (Z_lt_dec j n) as [Hlt | Hge]; [| lia]. simpl.
    destruct (index_Some arr j) as [x [Hx Hskip]]; [lia |].
    rewrite Hx, Hskip. simpl.
    apply IH; lia.
Qed.

Lemma calculate_variance_defined arr n mean :
  (0 <= n <= Z.of_nat (List.length arr))%Z ->
  calculate_variance pow arr n mean
  = Some (fold_left (fun s x => s + pow (x - mean) 2) (prefix arr n) 0
          / CDouble.of_int (CInt.sub n 1)).
Proof.
  intros H. unfold calculate_variance.
  rewrite (variance_loop_fold arr n mean (proj2 H) (Z.to_nat n)) by lia.
  reflexivity.
Qed.

Lemma variance_loop_reads arr arr' n mean :
  forall (k : nat) (j : Z) (sum_sq_diff : float),
    (n - j <= Z.of_nat k)%Z ->
    (forall i, (j <= i < n)%Z -> index arr i = index arr' i) ->
    variance_loop pow arr n mean j sum_sq_diff
    = variance_loop pow arr' n mean j sum_sq_diff.
Proof.
  intros k. induction k as [| k IH]; intros j acc Hk Hsame;
    rewrite (variance_loop_equation_1 pow arr),
            (variance_loop_equation_1 pow arr');
    destruct (Z_lt_dec j n) as [Hlt | Hge]; try lia; try reflexivity.
  simpl. rewrite <- (Hsame j) by lia.
  destruct (index arr j) as [x |]; simpl; [| reflexivity].
  apply IH; [lia |]. intros i Hi. apply Hsame. lia.
Qed.

(** With an exact square, the sum of the loop is the sum of the squared
    deviations. *)
Lemma pow_sum_squared_deviations mean l :
  Libm.exact_square pow ->
  forall acc,
    fold_left (fun s x => s + pow (x - mean) 2) l acc
    = fold_left (fun s x => s + (x - mean) * (x - mean)) l acc.
Proof.
  intros Hsq. induction l as [| x l IH]; intros acc; simpl.
  - reflexivity.
  - rewrite Hsq. apply IH.
Qed.

End WithPow.

Lemma pow_2_3_exact_square : Libm.exact_square Libm.pow_2_3.
Proof. intros x. reflexivity. Qed.

Lemma labels_differ : high_variability <> normal_variability.
Proof. discriminate. Qed.

(** *** The claims *)

(** C5: for an array of at least [n >= 1] elements, [calculate_mean]
    returns the arithmetic mean of its first [n] elements, the sum divided
    by [n], in the arithmetic of doubles; on the sample of [main] the
    result is the double 12.6. *)
Theorem calculate_mean_is_arithmetic_mean :
  (forall (arr : list float) (n : Z),
      (1 <= n <= Z.of_nat (List.length arr))%Z ->
      calculate_mean arr n = Some (arithmetic_mean (prefix arr n)))
  /\ calculate_mean sample_values sample_count = Some 12.6.
Proof.
  split.
  - intros arr n H. unfold arithmetic_mean.
    rewrite prefix_length by lia.
    apply calculate_mean_defined. lia.
  - reflexivity.
Qed.

Lemma calculate_mean_is_arithmetic_mean_witness :
  calculate_mean [1; 2; 4] 2 = Some 1.5.
Proof.
  rewrite (proj1 calculate_mean_is_arithmetic_mean [1; 2; 4] 2%Z).
  - reflexivity.
  - simpl. lia.
Defined.

(** C1, as stated, fails on the sample of [main]: whatever [pow] with an
    exact square is linked, the variance computed from the computed mean
    is not within 0.1 of 4.765. *)
Lemma sample_variance_is_not_4_765 :
  ~ (forall pow : float -> float -> float,
        Libm.exact_square pow ->
        exists m v : float,
          calculate_mean sample_values sample_count = Some m
          /\ calculate_variance pow sample_values sample_count m = Some v
          /\ CDouble.approx 0.1 v 4.765 = true).
Proof.
  intros H.
  destruct (H Libm.pow_2_3 pow_2_3_exact_square) as [m [v [Hm [Hv Happrox]]]].
  vm_compute in Hm. injection Hm as <-.
  vm_compute in Hv. injection Hv as <-.
  vm_compute in Happrox. discriminate.
Qed.

(** With squares that [pow] returns exactly on a list, the sum of the loop
    over it is the sum of the products. *)
Lemma pow_sum_on mean l pow :
  exact_square_on pow mean l ->
  forall acc,
    fold_left (fun s x => s + pow (x - mean) 2) l acc
    = fold_left (fun s x => s + (x - mean) * (x - mean)) l acc.
Proof.
  induction l as [| x l IH]; intros Hsq acc; simpl.
  - reflexivity.
  - rewrite (Hsq x) by (left; reflexivity).
    apply IH. intros y Hy. apply Hsq. right. exact Hy.
Qed.

(** C1, amended: for an array of at least [n >= 2] elements and every
    [pow], [calculate_variance] returns the sum, from the left, of the
    squared deviations [pow (x - mean) 2] of the first [n] elements, divided
    by [n - 1]; on the sample of [main] (5 elements, divisor 4), with a
    [pow] that returns the product [d * d] for each of the five deviations
    [d] from the mean 12.6, the variance is 5.195 up to 0.0005, which does
    not exceed the threshold 10.5, and the status is the normal one. *)
Theorem calculate_variance_is_sample_variance :
  forall pow : float -> float -> float,
    (forall (arr : list float) (n : Z) (mean : float),
        (2 <= n <= Z.of_nat (List.length arr))%Z ->
        (n <= CInt.INT_MAX)%Z ->
        calculate_variance pow arr n mean
        = Some (sample_variance_pow pow mean (prefix arr n)))
    /\ (exact_square_on pow 12.6 sample_values ->
        exists m v : float,
          calculate_mean sample_values sample_count = Some m
          /\ calculate_variance pow sample_values sample_count m = Some v
          /\ CDouble.approx 0.0005 v 5.195 = true
          /\ (v <=? 10.5) = true
          /\ classify v = normal_variability).
Proof.
  intros pow. split.
  - intros arr n mean H Hmax.
    rewrite calculate_variance_defined by lia.
    unfold sample_variance_pow, sum_squared_deviations_pow.
    rewrite prefix_length by lia.
    unfold CInt.sub. rewrite CIntFacts.wrap_in_range; [reflexivity |].
    unfold CInt.in_range, CInt.INT_MIN, CInt.INT_MAX in *. lia.
  - intros Hsq. exists 12.6. eexists. split; [reflexivity |]. split.
    + rewrite calculate_variance_defined
        by (unfold sample_count, sample_values; simpl; lia).
      change (prefix sample_values sample_count) with sample_values.
      rewrite (pow_sum_on 12.6 sample_values pow Hsq). reflexivity.
    + repeat split; vm_compute; reflexivity.
Qed.

Lemma calculate_variance_is_sample_variance_witness :
  calculate_variance Libm.pow_2_3 [1; 2; 4] 3 2 = Some 2.5
  /\ exists m v : float,
       calculate_mean sample_values sample_count = Some m
       /\ calculate_variance Libm.pow_2_3 sample_values sample_count m
          = Some v
       /\ CDouble.approx 0.0005 v 5.195 = true
       /\ (v <=? 10.5) = true
       /\ classify v = normal_variability.
Proof.
  split.
  - rewrite (proj1 (calculate_variance_is_sample_variance Libm.pow_2_3)
               [1; 2; 4] 3%Z 2).
    + reflexivity.
    + simpl. lia.
    + unfold CInt.INT_MAX. lia.
  - apply (proj2 (calculate_variance_is_sample_variance Libm.pow_2_3)).
    intros x Hx. reflexivity.
Defined.

(** C6: the status line is the one of high variability exactly when the
    variance exceeds the threshold 10.5, and the normal one otherwise: in
    particular whenever the variance is at most 10.5, and at 10.5 itself.
    [classify] takes the variance alone and gives a label for every
    double. *)
Theorem classify_threshold :
  forall v : float,
    THRESHOLD = 10.5
    /\ (classify v = high_variability <-> (10.5 <? v) = true)
    /\ (classify v = normal_variability <-> (10.5 <? v) = false)
    /\ ((v <=? 10.5) = true -> classify v = normal_variability)
    /\ classify 10.5 = normal_variability.
Proof.
  intros v. pose proof labels_differ as Hne.
  assert (Hhigh : (10.5 <? v) = true -> classify v = high_variability).
  { intros H. unfold classify, CDouble.gt, THRESHOLD. rewrite H. reflexivity. }
  assert (Hnormal : (10.5 <? v) = false -> classify v = normal_variability).
  { intros H. unfold classify, CDouble.gt, THRESHOLD. rewrite H. reflexivity. }
  split; [reflexivity |]. split; [| split; [| split]].
  - split; [| exact Hhigh].
    destruct (10.5 <? v) eqn:E; [reflexivity |].
    rewrite (Hnormal eq_refl). intros H. symmetry in H. contradiction.
  - split; [| exact Hnormal].
    destruct (10.5 <? v) eqn:E; [| reflexivity].
    rewrite (Hhigh eq_refl). intros H. contradiction.
  - intros H. apply Hnormal. exact (CDoubleFacts.leb_not_gt v 10.5 H).
  - reflexivity.
Qed.

Lemma classify_threshold_witness :
  classify 10.4 = normal_variability /\ classify 10.6 = high_variability.
Proof.
  split.
  - apply (proj1 (proj2 (proj2 (proj2 (classify_threshold 10.4))))).
    reflexivity.
  - apply (proj1 (proj2 (classify_threshold 10.6))). reflexivity.
Defined.

(** C7: with [count <= 1], [process_data] prints the error of insufficient
    data and returns with the [DataSet] as it was; with [count >= 2] (and
    that many elements in the array) it stores the arithmetic mean of the
    first [count] elements and their sample variance around that mean, and
    prints the identifier, that mean, that variance and the status of that
    variance against the threshold 10.5, in this order. *)
Theorem process_data_orchestration :
  forall (pow : float -> float -> float) (data : DataSet) (out : stdout),
    (forall count : Z,
        (count <= 1)%Z ->
        process_data pow data count out
        = Some (data, out ++ [Printf insufficient_data []]))
    /\ (forall (count : Z) (m v : float),
          (2 <= count <= Z.of_nat (List.length (values data)))%Z ->
          (count <= CInt.INT_MAX)%Z ->
          m = arithmetic_mean (prefix (values data) count) ->
          v = sample_variance_pow pow m (prefix (values data) count) ->
          process_data pow data count out
          = Some (mkDataSet (id data) (values data) m v,
                  out ++ analysis_lines (id data) m v)).
Proof.
  intros pow data out. split.
  - intros count H. unfold process_data.
    destruct (Z.leb_spec count 1) as [_ | Hgt]; [| lia].
    reflexivity.
  - intros count m v H Hmax Hm Hv.
    assert (Hmean : calculate_mean (values data) count = Some m).
    { rewrite calculate_mean_defined by lia. subst m.
      unfold arithmetic_mean. rewrite prefix_length by lia. reflexivity. }
    assert (Hvar : calculate_variance pow (values data) count m = Some v).
    { rewrite calculate_variance_defined by lia. subst v.
      unfold sample_variance_pow, sum_squared_deviations_pow.
      rewrite prefix_length by lia.
      unfold CInt.sub. rewrite CIntFacts.wrap_in_range; [reflexivity |].
      unfold CInt.in_range, CInt.INT_MIN, CInt.INT_MAX in *. lia. }
    unfold process_data.
    destruct (Z.leb_spec count 1) as [Hle | _]; [lia |].
    unfold bind, defined. rewrite Hmean. simpl.
    rewrite Hvar. unfold printf, ret, analysis_lines. simpl.
    repeat rewrite <- app_assoc. reflexivity.
Qed.

Lemma process_data_orchestration_witness :
  process_data Libm.pow_2_3 (mkDataSet 7 [1; 2; 3; 14] 0 0) 1 []
  = Some (mkDataSet 7 [1; 2; 3; 14] 0 0, [Printf insufficient_data []])
  /\ process_data Libm.pow_2_3 (mkDataSet 7 [1; 2; 3; 14] 0 0) 3 []
     = Some (mkDataSet 7 [1; 2; 3; 14] 2 1, analysis_lines 7 2 1)
  /\ process_data Libm.pow_2_3 (mkDataSet 7 [1; 2; 3; 14] 0 0) 4 []
     = Some (mkDataSet 7 [1; 2; 3; 14] 5 36.666666666666664,
             analysis_lines 7 5 36.666666666666664)
  /\ status_line 36.666666666666664
     = ("Stato: Alta variabilita' rilevata." ++ nl)%string.
Proof.
  split; [| split; [| split]].
  - apply (proj1 (process_data_orchestration
                    Libm.pow_2_3 (mkDataSet 7 [1; 2; 3; 14] 0 0) []) 1%Z).
    lia.
  - apply (proj2 (process_data_orchestration
                    Libm.pow_2_3 (mkDataSet 7 [1; 2; 3; 14] 0 0) [])
             3%Z 2 1).
    + simpl. lia.
    + unfold CInt.INT_MAX. lia.
    + reflexivity.
    + reflexivity.
  - apply (proj2 (process_data_orchestration
                    Libm.pow_2_3 (mkDataSet 7 [1; 2; 3; 14] 0 0) [])
             4%Z 5 36.666666666666664).
    + simpl. lia.
    + unfold CInt.INT_MAX. lia.
    + reflexivity.
    + reflexivity.
  - reflexivity.
Defined.

End StatisticsFacts.

(** ** The calculator of [example.c] *)

Module CalculatorFacts.

Import Stdio example CalculatorSpec.

(** *** [factorial] *)

Lemma factorial_unfold n :
  factorial n
  = if n <=? 1 then 1 else CInt.mul n (factorial (CInt.sub n 1)).
Proof.
  rewrite factorial_equation_1.
  destruct (Z_le_gt_dec n 1) as [Hle | Hgt]; simpl.
  - destruct (Z.leb_spec n 1); [reflexivity | lia].
  - destruct (Z.leb_spec n 1); [lia | reflexivity].
Qed.

Lemma factorial_base n : n <= 1 -> factorial n = 1.
Proof.
  intros H. rewrite factorial_unfold.
  destruct (Z.leb_spec n 1); [reflexivity | lia].
Qed.

Lemma factorial_step n :
  1 < n <= CInt.INT_MAX ->
  factorial n = CInt.mul n (factorial (n - 1)).
Proof.
  intros H. rewrite factorial_unfold.
  destruct (Z.leb_spec n 1); [lia |].
  unfold CInt.sub. rewrite CIntFacts.wrap_in_range; [reflexivity |].
  unfold CInt.in_range, CInt.INT_MIN, CInt.INT_MAX in *. lia.
Qed.

Lemma factorial_in_range n : CInt.in_range (factorial n).
Proof.
  rewrite factorial_unfold. destruct (n <=? 1).
  - unfold CInt.in_range, CInt.INT_MIN, CInt.INT_MAX. lia.
  - apply CIntFacts.wrap_range.
Qed.

(** The result is the product [1 * 2 * ... * n] reduced to an [int]. *)
Lemma factorial_wraps_product (k : nat) :
  Z.of_nat k <= CInt.INT_MAX ->
  factorial (Z.of_nat k) = CInt.wrap (product_upto k).
Proof.
  induction k as [| k IH]; intros Hk.
  - rewrite factorial_base by lia. reflexivity.
  - destruct k as [| k].
    + rewrite factorial_base by lia. reflexivity.
    + rewrite factorial_step by lia.
      replace (Z.of_nat (S (S k)) - 1) with (Z.of_nat (S k)) by lia.
      rewrite IH by lia. unfold CInt.mul.
      rewrite CIntFacts.wrap_wrap_mul. reflexivity.
Qed.

(** Up to 12 the product is an [int] and nothing wraps. *)
Lemma factorial_exact n :
  0 <= n <= 12 -> factorial n = product_upto (Z.to_nat n).
Proof.
  intros H.
  assert (Hcases : In n [0; 1; 2; 3; 4; 5; 6; 7; 8; 9; 10; 11; 12]).
  { simpl. lia. }
  simpl in Hcases.
  repeat (destruct Hcases as [<- | Hcases]; [vm_compute; reflexivity |]).
  contradiction.
Qed.

(** From 13 on it does: [13!] is not an [int], and the wrapped product can
    be negative. *)
Lemma factorial_overflows :
  factorial 13 = 1932053504
  /\ product_upto 13 = 6227020800
  /\ factorial 17 = -288522240.
Proof. repeat split; vm_compute; reflexivity. Qed.

(** C2: for every [int] [n >= 0], [factorial n] is 1 when [n <= 1] and the
    product, as the multiplication of [int] computes it, of [n] and
    [factorial (n - 1)] otherwise; up to 12 this product does not wrap.
    [factorial 0 = 1], [factorial 1 = 1], [factorial 5 = 120]. *)
Theorem factorial_recursive_definition :
  (forall n : Z,
      0 <= n <= CInt.INT_MAX ->
      (n <= 1 -> factorial n = 1)
      /\ (1 < n -> factorial n = CInt.mul n (factorial (n - 1)))
      /\ (1 < n <= 12 -> factorial n = n * factorial (n - 1)))
  /\ factorial 0 = 1 /\ factorial 1 = 1 /\ factorial 5 = 120.
Proof.
  split; [| repeat split; vm_compute; reflexivity].
  intros n Hn. split; [apply factorial_base |]. split.
  - intros H. apply factorial_step. lia.
  - intros H. rewrite factorial_step by lia.
    rewrite (factorial_exact (n - 1)) by lia.
    pose proof (factorial_exact n ltac:(lia)) as Hex.
    rewrite factorial_step, (factorial_exact (n - 1)) in Hex by lia.
    rewrite Hex.
    replace (Z.to_nat n) with (S (Z.to_nat (n - 1))) by lia.
    change (product_upto (S (Z.to_nat (n - 1))))
      with (Z.of_nat (S (Z.to_nat (n - 1))) * product_upto (Z.to_nat (n - 1))).
    f_equal. lia.
Qed.

Lemma factorial_recursive_definition_witness :
  factorial 6 = 6 * factorial 5 /\ factorial 1 = 1.
Proof.
  assert (H6 : 0 <= 6 <= CInt.INT_MAX) by (unfold CInt.INT_MAX; lia).
  assert (H1 : 0 <= 1 <= CInt.INT_MAX) by (unfold CInt.INT_MAX; lia).
  split.
  - apply (proj2 (proj2 (proj1 factorial_recursive_definition 6 H6))). lia.
  - apply (proj1 (proj1 factorial_recursive_definition 1 H1)). lia.
Defined.

Lemma main_factorial pow num1 rest out :
  main pow (TInt 1 :: TInt num1 :: rest) out
  = Some (0, out ++ menu
             ++ [ Printf "Enter a number: " [];
                  if num1 <? 0 then Printf negative_factorial []
                  else Printf ("Factorial of %d is %d" ++ nl)
                         [AInt num1; AInt (factorial num1)] ]).
Proof.
  unfold main, bind, printf, defined, ret, menu. simpl.
  destruct (num1 <? 0); simpl; repeat rewrite <- app_assoc; reflexivity.
Qed.

Lemma product_upto_positive (k : nat) : 0 < product_upto k.
Proof.
  induction k as [| k IH].
  - reflexivity.
  - change (product_upto (S k)) with (Z.of_nat (S k) * product_upto k). nia.
Qed.

(** C10, as stated, fails: [factorial] does produce a negative result on an
    [int], where the product wraps. *)
Lemma factorial_17_is_negative :
  CInt.in_range 17 /\ factorial 17 = -288522240 /\ factorial 17 < 0.
Proof.
  split; [| split].
  - unfold CInt.in_range, CInt.INT_MIN, CInt.INT_MAX. lia.
  - vm_compute. reflexivity.
  - vm_compute. reflexivity.
Qed.

(** C10, amended: on a negative [n] the test [n <= 1] holds at once and
    [factorial n] is 1; for every [n] the call returns, and returns an
    [int]; for every [n <= 12], the negative ones included, nothing wraps
    and the result is the product [1 * 2 * ... * n], a positive number;
    [factorial] prints nothing, and it is [main] that reports a negative
    input, without calling [factorial]. *)
Theorem factorial_of_negative :
  (forall n : Z, n < 0 -> factorial n = 1)
  /\ (forall n : Z, CInt.in_range (factorial n))
  /\ (forall n : Z,
        n <= 12 ->
        factorial n = product_upto (Z.to_nat n) /\ 0 < factorial n)
  /\ (forall (pow : float -> float -> float) (n : Z)
             (rest : list token) (out : stdout),
          n < 0 ->
          main pow (TInt 1 :: TInt n :: rest) out
          = Some (0, out ++ menu
                     ++ [ Printf "Enter a number: " [];
                          Printf negative_factorial [] ])).
Proof.
  split; [| split; [| split]].
  - intros n H. apply factorial_base. lia.
  - exact factorial_in_range.
  - intros n H.
    assert (Heq : factorial n = product_upto (Z.to_nat n)).
    { destruct (Z_lt_ge_dec n 0) as [Hneg | Hpos].
      - rewrite factorial_base by lia.
        replace (Z.to_nat n) with O by lia. reflexivity.
      - apply factorial_exact. lia. }
    split; [exact Heq |]. rewrite Heq. apply product_upto_positive.
  - intros pow n rest out H. rewrite main_factorial.
    destruct (Z.ltb_spec n 0); [reflexivity | lia].
Qed.

Lemma factorial_of_negative_witness :
  factorial (-3) = 1
  /\ (factorial 12 = product_upto (Z.to_nat 12) /\ 0 < factorial 12)
  /\ main Libm.pow_2_3 [TInt 1; TInt (-3)] []
     = Some (0, menu ++ [ Printf "Enter a number: " [];
                          Printf negative_factorial [] ]).
Proof.
  split; [| split].
  - apply (proj1 factorial_of_negative (-3)). lia.
  - apply (proj1 (proj2 (proj2 factorial_of_negative)) 12). lia.
  - apply (proj2 (proj2 (proj2 factorial_of_negative))
             Libm.pow_2_3 (-3) [] []).
    lia.
Defined.

(** *** [is_prime] *)

Lemma mul_small_square i :
  0 <= i <= sqrt_int_max -> CInt.mul i i = i * i.
Proof.
  unfold sqrt_int_max. intros H. unfold CInt.mul.
  apply CIntFacts.wrap_in_range.
  unfold CInt.in_range, CInt.INT_MIN, CInt.INT_MAX. nia.
Qed.

Lemma succ_in_range i num :
  2 <= i < num -> num <= CInt.INT_MAX -> CInt.add i 1 = i + 1.
Proof.
  intros H Hmax. unfold CInt.add. apply CIntFacts.wrap_in_range.
  unfold CInt.in_range, CInt.INT_MIN, CInt.INT_MAX in *. lia.
Qed.

Lemma rem_nonzero_lt num i :
  2 <= i <= num -> Z.rem num i <> 0 -> i < num.
Proof.
  intros H Hrem.
  destruct (Z.eq_dec i num) as [-> | Hne]; [| lia].
  rewrite Z.rem_same in Hrem by lia. contradiction.
Qed.

(** The loop ends within [num - i + 1] iterations: a divisor that is not
    found earlier is found at [i = num]. *)
Lemma is_prime_loop_returns (fuel : nat) :
  forall num i : Z,
    2 <= i <= num -> num <= CInt.INT_MAX ->
    (Z.to_nat (num - i) < fuel)%nat ->
    exists r, is_prime_loop fuel num i = Some r /\ (r = 0 \/ r = 1).
Proof.
  induction fuel as [| fuel IH]; intros num i Hi Hmax Hfuel; [lia |].
  simpl. destruct (CInt.mul i i <=? num); [| eauto].
  unfold CInt.rem. destruct (Z.eqb_spec (Z.rem num i) 0) as [| Hrem]; [eauto |].
  pose proof (rem_nonzero_lt num i Hi Hrem).
  rewrite (succ_in_range i num) by lia.
  apply IH; lia.
Qed.

(** When the test [i * i <= num] never fails, the loop runs until it finds a
    divisor, [num] itself at the latest, and returns 0. *)
Lemma is_prime_loop_guard_holds (fuel : nat) :
  forall num i : Z,
    2 <= i <= num -> num <= CInt.INT_MAX ->
    (forall j, CInt.mul j j <= num) ->
    (Z.to_nat (num - i) < fuel)%nat ->
    is_prime_loop fuel num i = Some 0.
Proof.
  induction fuel as [| fuel IH]; intros num i Hi Hmax Hguard Hfuel; [lia |].
  simpl. destruct (Z.leb_spec (CInt.mul i i) num) as [_ | Hgt];
    [| specialize (Hguard i); lia].
  unfold CInt.rem.
  destruct (Z.eqb_spec (Z.rem num i) 0) as [| Hrem]; [reflexivity |].
  pose proof (rem_nonzero_lt num i Hi Hrem).
  rewrite (succ_in_range i num) by lia.
  apply IH; auto; lia.
Qed.

(** Below [46340 * 46340] no square wraps, and the loop is trial division
    by the integers from [i] on whose square is at most [num]. *)
Lemma is_prime_loop_trial_division (fuel : nat) :
  forall num i : Z,
    2 <= i <= sqrt_int_max -> i <= num ->
    num < sqrt_int_max * sqrt_int_max ->
    (Z.to_nat (num - i) < fuel)%nat ->
    ((forall j, i <= j -> j * j <= num -> Z.rem num j <> 0) ->
     is_prime_loop fuel num i = Some 1)
    /\ (forall j, i <= j -> j * j <= num -> Z.rem num j = 0 ->
        is_prime_loop fuel num i = Some 0).
Proof.
  induction fuel as [| fuel IH]; intros num i Hi Hnum Hmax Hfuel; [lia |].
  simpl. rewrite mul_small_square by lia. unfold CInt.rem.
  unfold sqrt_int_max in *.
  destruct (Z.leb_spec (i * i) num) as [Hle | Hgt].
  - destruct (Z.eqb_spec (Z.rem num i) 0) as [Hrem | Hrem].
    + split; [| reflexivity].
      intros Hnone. exfalso. apply (Hnone i); [lia | exact Hle | exact Hrem].
    + assert (Hlt : i < num) by nia.
      assert (Hi' : i < 46340) by nia.
      rewrite (succ_in_range i num) by (unfold CInt.INT_MAX; lia).
      destruct (IH num (i + 1)) as [IH1 IH0]; try (unfold sqrt_int_max; lia).
      split.
      * intros Hnone. apply IH1. intros j Hj. apply Hnone. lia.
      * intros j Hj Hsq Hdiv. apply (IH0 j); try assumption.
        destruct (Z.eq_dec j i) as [-> | Hne]; [contradiction | lia].
  - split; [reflexivity |].
    intros j Hj Hsq _. exfalso. nia.
Qed.

(** [is_prime] returns, 0 or 1, on every [int]. *)
Lemma is_prime_returns num :
  CInt.in_range num ->
  exists r, is_prime num = Some r /\ (r = 0 \/ r = 1).
Proof.
  intros [_ Hmax]. unfold is_prime.
  destruct (Z.ltb_spec num 2) as [Hlt | Hge]; [eauto |].
  apply is_prime_loop_returns; lia.
Qed.

(** Below [46340 * 46340 = 2147395600], [is_prime] is trial division. *)
Lemma is_prime_trial_division num :
  num < sqrt_int_max * sqrt_int_max ->
  (num < 2 -> is_prime num = Some 0)
  /\ (2 <= num ->
      (is_prime num = Some 1 <-> no_divisor num)
      /\ (is_prime num = Some 0 <-> ~ no_divisor num)).
Proof.
  intros Hmax. split.
  - intros H. unfold is_prime.
    destruct (Z.ltb_spec num 2); [reflexivity | lia].
  - intros H.
    assert (Hiff : is_prime num = Some 1 <-> no_divisor num).
    { unfold is_prime. destruct (Z.ltb_spec num 2) as [Hlt | _]; [lia |].
      destruct (is_prime_loop_trial_division (Z.to_nat num) num 2)
        as [H1 H0]; try (unfold sqrt_int_max in *; lia).
      split; [| exact H1].
      intros Hr i Hi Hsq Hdiv.
      rewrite (H0 i Hi Hsq Hdiv) in Hr. discriminate. }
    split; [exact Hiff |].
    destruct (is_prime_returns num) as [r [Hr Hcases]].
    { unfold CInt.in_range, CInt.INT_MIN, CInt.INT_MAX, sqrt_int_max in *.
      lia. }
    rewrite Hr in *. destruct Hcases as [-> | ->].
    + split; [| reflexivity].
      intros _ Hnone. apply Hiff in Hnone. discriminate.
    + split; [discriminate |].
      intros Hsome. exfalso. apply Hsome, Hiff. reflexivity.
Qed.

Lemma none_divides_sound num k :
  forall j i,
    none_divides num k j = true ->
    j <= i < j + Z.of_nat k -> Z.rem num i <> 0.
Proof.
  induction k as [| k IH]; intros j i Hcheck Hi; [lia |].
  simpl in Hcheck. apply andb_true_iff in Hcheck as [Hj Hrest].
  destruct (Z.eq_dec i j) as [-> | Hne].
  - destruct (Z.eqb_spec (Z.rem num j) 0); [discriminate | assumption].
  - apply (IH (j + 1)); [exact Hrest | lia].
Qed.

(** 2147483647 has no divisor from 2 on whose square it reaches. *)
Lemma no_divisor_int_max : no_divisor 2147483647.
Proof.
  intros i Hi Hsq.
  apply (none_divides_sound 2147483647 (Z.to_nat 46339) 2).
  - vm_compute. reflexivity.
  - rewrite Z2Nat.id by lia. nia.
Qed.

Lemma is_prime_at_int_max num :
  num = CInt.INT_MAX -> is_prime num = Some 0.
Proof.
  intros Hnum. unfold is_prime.
  destruct (Z.ltb_spec num 2) as [Hlt | Hge].
  - unfold CInt.INT_MAX in Hnum. lia.
  - apply is_prime_loop_guard_holds; try lia.
    intros j. rewrite Hnum. apply CIntFacts.wrap_range.
Qed.

(** C3: the values the specification lists hold, [is_prime 2 = 1],
    [is_prime 1 = 0], [is_prime 17 = 1], [is_prime 18 = 0], and below
    [46340 * 46340] the function is the trial division it describes
    ([is_prime_trial_division]).  At [INT_MAX = 2147483647], which no
    integer from 2 on whose square it reaches divides, the square [i * i]
    wraps from [i = 46341] on, the test [i * i <= num] never fails, and
    [is_prime] returns 0. *)
Theorem is_prime_int_max :
  is_prime 2147483647 = Some 0
  /\ no_divisor 2147483647
  /\ CInt.mul 46341 46341 = -2147479015
  /\ is_prime 2 = Some 1 /\ is_prime 1 = Some 0
  /\ is_prime 17 = Some 1 /\ is_prime 18 = Some 0.
Proof.
  split; [apply is_prime_at_int_max; reflexivity |].
  split; [exact no_divisor_int_max |].
  repeat split; vm_compute; reflexivity.
Qed.

(** The result of the loop does not depend on the bound on its
    iterations. *)
Lemma is_prime_loop_fuel (fuel : nat) :
  forall (fuel' : nat) (num i r r' : Z),
    is_prime_loop fuel num i = Some r ->
    is_prime_loop fuel' num i = Some r' ->
    r = r'.
Proof.
  induction fuel as [| fuel IH]; intros fuel' num i r r' H H';
    [discriminate |].
  destruct fuel' as [| fuel']; [discriminate |].
  simpl in H, H'.
  destruct (CInt.mul i i <=? num); [| congruence].
  destruct (CInt.rem num i =? 0); [congruence |].
  exact (IH fuel' num (CInt.add i 1) r r' H H').
Qed.

(** *** [calculate] *)

Lemma calculate_pow pow a b out :
  calculate pow a b "^" out = Some (pow a b, out).
Proof. reflexivity. Qed.

Lemma calculate_division_by_zero pow a b out :
  CDouble.ne b 0 = false ->
  calculate pow a b "/" out = Some (0%float, out ++ [Printf division_by_zero []]).
Proof.
  intros H. unfold calculate. simpl. rewrite H. reflexivity.
Qed.

Lemma calculate_invalid_operator pow a b op out :
  ~ In op operators ->
  calculate pow a b op out = Some (0%float, out ++ [Printf invalid_operator []]).
Proof.
  intros H. unfold calculate.
  repeat match goal with
         | |- context [Ascii.eqb op ?c] =>
             destruct (Ascii.eqb_spec op c) as [-> | _];
             [exfalso; apply H; simpl; tauto |]
         end.
  reflexivity.
Qed.

(** What [calculate] returns and prints is the same whatever has been
    printed before. *)
Lemma calculate_independent pow a b op :
  exists (r : float) (printed : stdout),
    forall out, calculate pow a b op out = Some (r, out ++ printed).
Proof.
  unfold calculate.
  repeat match goal with
         | |- context [if ?c then _ else _] => destruct c
         end;
    unfold ret, bind, printf;
    try (eexists; exists []; intros out; rewrite app_nil_r; reflexivity);
    eexists; eexists; intros out; reflexivity.
Qed.

(** C4: [calculate a 0 '/'] prints the error of the division by zero and
    returns 0, and [calculate a b op] with [op] none of [+ - * / ^] prints
    the error of the invalid operator and returns 0; in both cases the call
    returns, with nothing else printed. *)
Theorem calculate_errors :
  forall (pow : float -> float -> float) (out : stdout),
    (forall a : float,
        calculate pow a 0 "/" out
        = Some (0%float, out ++ [Printf division_by_zero []]))
    /\ (forall (a b : float) (op : ascii),
          ~ In op operators ->
          calculate pow a b op out
          = Some (0%float, out ++ [Printf invalid_operator []]))
    /\ calculate pow 6 0 "/" out
       = Some (0%float, out ++ [Printf division_by_zero []]).
Proof.
  intros pow out. split; [| split].
  - intros a. apply calculate_division_by_zero. reflexivity.
  - intros a b op. apply calculate_invalid_operator.
  - apply calculate_division_by_zero. reflexivity.
Qed.

Lemma calculate_errors_witness :
  calculate Libm.pow_2_3 1 2 "%" []
  = Some (0%float, [Printf invalid_operator []]).
Proof.
  apply (proj1 (proj2 (calculate_errors Libm.pow_2_3 [])) 1%float 2%float).
  unfold operators. simpl.
  intros [H | [H | [H | [H | [H | H]]]]];
    try discriminate H; exact H.
Defined.

(** C8: [calculate a b '^'] is [pow a b], for every [a] and [b], with no
    test on the operands and nothing printed; with a [pow] that returns the
    power 8 of 2 and 3 exactly, [calculate 2 3 '^'] is 8. *)
Theorem calculate_power :
  forall (pow : float -> float -> float) (out : stdout),
    (forall a b : float, calculate pow a b "^" out = Some (pow a b, out))
    /\ (Libm.exact_2_3 pow ->
        calculate pow 2 3 "^" out = Some (8%float, out)).
Proof.
  intros pow out. split.
  - intros a b. apply calculate_pow.
  - intros H. rewrite calculate_pow, H. reflexivity.
Qed.

Lemma calculate_power_witness :
  calculate Libm.pow_2_3 2 3 "^" [] = Some (8%float, []).
Proof.
  apply (proj2 (calculate_power Libm.pow_2_3 [])).
  reflexivity.
Defined.

End CalculatorFacts.

(** ** Dependence on the arguments alone *)

Module Determinism.

Import Stdio.
Import complex_sample example StatisticsSpec CalculatorSpec.
Import StatisticsFacts CalculatorFacts.

Lemma process_data_independent pow data count :
  independent_of_output (process_data pow data count).
Proof.
  unfold independent_of_output, process_data.
  destruct (count <=? 1).
  - left. eexists. eexists. intros out. reflexivity.
  - unfold bind, defined, printf, ret.
    destruct (calculate_mean (values data) count) as [m |];
      [| right; reflexivity].
    simpl.
    destruct (calculate_variance pow (values data) count m) as [v |];
      [| right; reflexivity].
    left. exists (mkDataSet (id data) (values data) m v).
    exists (report data m v).
    intros out. unfold report. repeat rewrite <- app_assoc. reflexivity.
Qed.

(** C9: each routine is a function of its arguments.  [calculate_mean] and
    [calculate_variance] give the same result on two arrays with the same
    first [n] elements; what [process_data], with its status line, and
    [calculate] return and print does not depend on the output printed
    before; [factorial] and [is_prime] take the integer alone, and the
    result of the loop of [is_prime] does not depend on the bound on its
    iterations. *)
Theorem routines_deterministic :
  forall pow : float -> float -> float,
    (forall (arr arr' : list float) (n : Z),
        same_elements arr arr' n ->
        calculate_mean arr n = calculate_mean arr' n)
    /\ (forall (arr arr' : list float) (n : Z) (mean : float),
          same_elements arr arr' n ->
          calculate_variance pow arr n mean
          = calculate_variance pow arr' n mean)
    /\ (forall v v' : float, v = v' -> classify v = classify v')
    /\ (forall (data : DataSet) (count : Z),
          independent_of_output (process_data pow data count))
    /\ (forall (a b : float) (op : ascii),
          independent_of_output (calculate pow a b op))
    /\ (forall n n' : Z, n = n' -> factorial n = factorial n')
    /\ (forall num num' : Z, num = num' -> is_prime num = is_prime num')
    /\ (forall (fuel fuel' : nat) (num r r' : Z),
          is_prime_loop fuel num 2 = Some r ->
          is_prime_loop fuel' num 2 = Some r' ->
          r = r').
Proof.
  intros pow. repeat split.
  - intros arr arr' n H. unfold calculate_mean.
    rewrite (mean_loop_reads arr arr' n (Z.to_nat n) 0 0%float);
      [reflexivity | lia | exact H].
  - intros arr arr' n mean H. unfold calculate_variance.
    rewrite (variance_loop_reads pow arr arr' n mean (Z.to_nat n) 0 0%float);
      [reflexivity | lia | exact H].
  - intros v v' ->. reflexivity.
  - intros data count. apply process_data_independent.
  - intros a b op. left. apply calculate_independent.
  - intros n n' ->. reflexivity.
  - intros num num' ->. reflexivity.
  - intros fuel fuel' num r r'. apply is_prime_loop_fuel.
Qed.

Lemma routines_deterministic_witness :
  calculate_mean [1; 2; 4]%float 2 = calculate_mean [1; 2; 8]%float 2
  /\ calculate_variance Libm.pow_2_3 [1; 2; 4]%float 2 1.5
     = calculate_variance Libm.pow_2_3 [1; 2; 8]%float 2 1.5.
Proof.
  assert (H : same_elements [1; 2; 4]%float [1; 2; 8]%float 2).
  { intros i Hi. assert (Hcases : i = 0 \/ i = 1) by lia.
    destruct Hcases as [-> | ->]; reflexivity. }
  split.
  - apply (proj1 (routines_deterministic Libm.pow_2_3) _ _ 2 H).
  - apply (proj1 (proj2 (routines_deterministic Libm.pow_2_3)) _ _ 2 1.5%float H).
Defined.

End Determinism.

(** * Further properties of the statistics *)

Module StatisticsExtra.

Import Stdio complex_sample StatisticsSpec StatisticsFacts.
#[local] Open Scope float_scope.

(** *** Bounds of the array *)

Lemma index_None arr i :
  (Z.of_nat (List.length arr) <= i)%Z -> index arr i = None.
Proof.
  intros H. unfold index.
  destruct (Z.ltb_spec i 0) as [Hneg | _]; [reflexivity |].
  apply nth_error_None. lia.
Qed.

Lemma mean_loop_exit arr n i sum :
  (n <= i)%Z -> mean_loop arr n i sum = Some sum.
Proof.
  intros H. rewrite mean_loop_equation_1.
  destruct (Z_lt_dec i n) as [Hlt | Hge]; [lia | reflexivity].
Qed.

Lemma mean_loop_past_end arr n :
  (Z.of_nat (List.length arr) < n)%Z ->
  forall (k : nat) (i : Z) (sum : float),
    (0 <= i)%Z -> (Z.of_nat (List.length arr) - i = Z.of_nat k)%Z ->
    mean_loop arr n i sum = None.
Proof.
  intros Hn k. induction k as [| k IH]; intros i sum Hi Hk;
    rewrite mean_loop_equation_1;
    destruct (Z_lt_dec i n) as [Hlt | Hge]; try lia; simpl.
  - rewrite index_None by lia. reflexivity.
  - destruct (index_Some arr i) as [x [Hx _]]; [lia |].
    rewrite Hx. simpl. apply IH; lia.
Qed.

Lemma variance_loop_exit pow arr n mean j acc :
  (n <= j)%Z -> variance_loop pow arr n mean j acc = Some acc.
Proof.
  intros H. rewrite variance_loop_equation_1.
  destruct (Z_lt_dec j n) as [Hlt | Hge]; [lia | reflexivity].
Qed.

Lemma variance_loop_past_end pow arr n mean :
  (Z.of_nat (List.length arr) < n)%Z ->
  forall (k : nat) (j : Z) (acc : float),
    (0 <= j)%Z -> (Z.of_nat (List.length arr) - j = Z.of_nat k)%Z ->
    variance_loop pow arr n mean j acc = None.
Proof.
  intros Hn k. induction k as [| k IH]; intros j acc Hj Hk;
    rewrite variance_loop_equation_1;
    destruct (Z_lt_dec j n) as [Hlt | Hge]; try lia; simpl.
  - rewrite index_None by lia. reflexivity.
  - destruct (index_Some arr j) as [x [Hx _]]; [lia |].
    rewrite Hx. simpl. apply IH; lia.
Qed.

Lemma calculate_mean_past_end arr n :
  (Z.of_nat (List.length arr) < n)%Z -> calculate_mean arr n = None.
Proof.
  intros H. unfold calculate_mean.
  rewrite (mean_loop_past_end arr n H (List.length arr)) by lia.
  reflexivity.
Qed.

Lemma calculate_mean_within arr n :
  (n <= Z.of_nat (List.length arr))%Z -> calculate_mean arr n <> None.
Proof.
  intros H. unfold calculate_mean.
  destruct (Z_lt_dec n 0) as [Hneg | Hpos].
  - rewrite mean_loop_exit by lia. discriminate.
  - rewrite (mean_loop_fold arr n H (Z.to_nat n)) by lia. discriminate.
Qed.

Lemma calculate_variance_past_end pow arr n mean :
  (Z.of_nat (List.length arr) < n)%Z ->
  calculate_variance pow arr n mean = None.
Proof.
  intros H. unfold calculate_variance.
  rewrite (variance_loop_past_end pow arr n mean H (List.length arr)) by lia.
  reflexivity.
Qed.

Lemma calculate_variance_within pow arr n mean :
  (n <= Z.of_nat (List.length arr))%Z ->
  calculate_variance pow arr n mean <> None.
Proof.
  intros H. unfold calculate_variance.
  destruct (Z_lt_dec n 0) as [Hneg | Hpos].
  - rewrite variance_loop_exit by lia. discriminate.
  - rewrite (variance_loop_fold pow arr n mean H (Z.to_nat n)) by lia.
    discriminate.
Qed.

(** X1: [calculate_mean] has no defined result exactly when [n] exceeds the
    number of elements the array holds: it then reads past them. *)
Theorem calculate_mean_bounds :
  forall (arr : list float) (n : Z),
    calculate_mean arr n = None <-> (Z.of_nat (List.length arr) < n)%Z.
Proof.
  intros arr n. split.
  - intros H.
    destruct (Z_lt_dec (Z.of_nat (List.length arr)) n) as [| Hle];
      [assumption | exfalso].
    apply (calculate_mean_within arr n); [lia | exact H].
  - apply calculate_mean_past_end.
Qed.

Lemma calculate_mean_bounds_witness :
  calculate_mean [1; 2] 3 = None /\ calculate_mean [1; 2] 2 <> None.
Proof.
  split.
  - apply (proj2 (calculate_mean_bounds [1; 2] 3)). simpl. lia.
  - intros H. apply (proj1 (calculate_mean_bounds [1; 2] 2)) in H.
    simpl in H. lia.
Defined.

(** X2: [calculate_variance] has no defined result exactly when [n] exceeds
    the number of elements the array holds, whatever [pow] and [mean]. *)
Theorem calculate_variance_bounds :
  forall (pow : float -> float -> float) (arr : list float) (n : Z)
         (mean : float),
    calculate_variance pow arr n mean = None
    <-> (Z.of_nat (List.length arr) < n)%Z.
Proof.
  intros pow arr n mean. split.
  - intros H.
    destruct (Z_lt_dec (Z.of_nat (List.length arr)) n) as [| Hle];
      [assumption | exfalso].
    apply (calculate_variance_within pow arr n mean); [lia | exact H].
  - apply calculate_variance_past_end.
Qed.

Lemma calculate_variance_bounds_witness :
  calculate_variance Libm.pow_2_3 [1; 2] 3 1 = None
  /\ calculate_variance Libm.pow_2_3 [1; 2] 2 1 <> None.
Proof.
  split.
  - apply (proj2 (calculate_variance_bounds Libm.pow_2_3 [1; 2] 3 1)).
    simpl. lia.
  - intros H.
    apply (proj1 (calculate_variance_bounds Libm.pow_2_3 [1; 2] 2 1)) in H.
    simpl in H. lia.
Defined.

(** X3: the divisions are not guarded.  With [n <= 0] [calculate_mean]
    reads nothing and returns [0.0 / n], not a number for [n = 0]; with
    [n = 1] [calculate_variance] divides the one squared deviation by
    zero, and with [n <= 0] it returns [0.0 / (n - 1)]. *)
Theorem unguarded_divisions :
  forall (pow : float -> float -> float) (arr : list float) (mean : float),
    (forall n : Z,
        (n <= 0)%Z ->
        calculate_mean arr n = Some (0 / CDouble.of_int n)
        /\ calculate_variance pow arr n mean
           = Some (0 / CDouble.of_int (CInt.sub n 1)))
    /\ calculate_mean arr 0 = Some nan
    /\ (forall x : float,
          calculate_variance pow (x :: arr) 1 mean
          = Some ((0 + pow (x - mean) 2) / 0)).
Proof.
  intros pow arr mean. split; [| split].
  - intros n H. unfold calculate_mean, calculate_variance.
    rewrite mean_loop_exit, variance_loop_exit by lia.
    split; reflexivity.
  - unfold calculate_mean. rewrite mean_loop_exit by lia. reflexivity.
  - intros x. rewrite calculate_variance_defined by (simpl; lia).
    reflexivity.
Qed.

Lemma unguarded_divisions_witness :
  calculate_mean [1; 2] (-2) = Some (-0)
  /\ calculate_variance Libm.pow_2_3 [1; 2] (-2) 1 = Some (-0).
Proof.
  apply (proj1 (unguarded_divisions Libm.pow_2_3 [1; 2] 1) (-2)%Z). lia.
Defined.

(** *** [process_data] *)

(** The two outcomes of [process_data] when it has one. *)
Lemma process_data_cases pow data count out d out' :
  process_data pow data count out = Some (d, out') ->
  ((count <= 1)%Z /\ d = data /\ out' = out ++ [Printf insufficient_data []])
  \/ ((1 < count)%Z
      /\ exists m v : float,
          calculate_mean (values data) count = Some m
          /\ calculate_variance pow (values data) count m = Some v
          /\ d = mkDataSet (id data) (values data) m v
          /\ out' = out ++ report data m v).
Proof.
  unfold process_data. destruct (Z.leb_spec count 1) as [Hle | Hgt].
  - intros H. injection H as <- <-. left. auto.
  - unfold bind, defined, printf, ret.
    destruct (calculate_mean (values data) count) as [m |] eqn:Hm;
      [| discriminate].
    simpl.
    destruct (calculate_variance pow (values data) count m) as [v |] eqn:Hv;
      [| discriminate].
    intros H. injection H as <- <-. right. split; [exact Hgt |].
    exists m, v. unfold report. repeat rewrite <- app_assoc.
    repeat split; [exact Hv].
Qed.

(** X4: [process_data] never changes the identifier or the elements of the
    [DataSet], and never removes what was printed before: it only adds
    lines. *)
Theorem process_data_preserves :
  forall (pow : float -> float -> float) (data d : DataSet) (count : Z)
         (out out' : stdout),
    process_data pow data count out = Some (d, out') ->
    id d = id data /\ values d = values data
    /\ exists printed : stdout, out' = out ++ printed.
Proof.
  intros pow data d count out out' H.
  destruct (process_data_cases _ _ _ _ _ _ H)
    as [[_ [-> ->]] | [_ [m [v [_ [_ [-> ->]]]]]]]; simpl; eauto.
Qed.

Lemma process_data_preserves_witness :
  id (mkDataSet 7 [1; 2; 3] 2 1) = 7%Z
  /\ values (mkDataSet 7 [1; 2; 3] 2 1) = [1; 2; 3]
  /\ exists printed : stdout,
       steps ++ report (mkDataSet 7 [1; 2; 3] 0 0) 2 1 = steps ++ printed.
Proof.
  apply (process_data_preserves Libm.pow_2_3
           (mkDataSet 7 [1; 2; 3] 0 0) _ 3%Z steps).
  reflexivity.
Defined.

(** X5: [process_data] reads past the elements of the array exactly when
    [count] is above 1 and above their number; otherwise it has a result. *)
Theorem process_data_bounds :
  forall (pow : float -> float -> float) (data : DataSet) (count : Z)
         (out : stdout),
    process_data pow data count out = None
    <-> (1 < count /\ Z.of_nat (List.length (values data)) < count)%Z.
Proof.
  intros pow data count out. unfold process_data.
  destruct (Z.leb_spec count 1) as [Hle | Hgt].
  - split; [discriminate | lia].
  - unfold bind, defined, printf, ret.
    destruct (Z_lt_dec (Z.of_nat (List.length (values data))) count)
      as [Hlt | Hge].
    + rewrite calculate_mean_past_end by exact Hlt. tauto.
    + destruct (calculate_mean (values data) count) as [m |] eqn:Hm;
        [| exfalso; apply (calculate_mean_within (values data) count);
           [lia | exact Hm]].
      simpl.
      destruct (calculate_variance pow (values data) count m) as [v |] eqn:Hv;
        [| exfalso; apply (calculate_variance_within pow (values data) count m);
           [lia | exact Hv]].
      split; [discriminate | lia].
Qed.

Lemma process_data_bounds_witness :
  process_data Libm.pow_2_3 (mkDataSet 7 [1; 2; 3] 0 0) 4 [] = None.
Proof.
  apply (proj2 (process_data_bounds Libm.pow_2_3
                  (mkDataSet 7 [1; 2; 3] 0 0) 4 [])).
  simpl. lia.
Defined.

(** X6: a second call of [process_data] on the [DataSet] the first one
    leaves, with the same [count], leaves it as it is and prints the same
    lines again. *)
Theorem process_data_twice :
  forall (pow : float -> float -> float) (data d : DataSet) (count : Z)
         (out out' : stdout),
    process_data pow data count out = Some (d, out') ->
    exists printed : stdout,
      out' = out ++ printed
      /\ forall out2 : stdout,
          process_data pow d count out2 = Some (d, out2 ++ printed).
Proof.
  intros pow data d count out out' H.
  destruct (process_data_cases _ _ _ _ _ _ H)
    as [[Hle [-> ->]] | [Hgt [m [v [Hm [Hv [-> ->]]]]]]].
  - eexists. split; [reflexivity |]. intros out2.
    unfold process_data.
    destruct (Z.leb_spec count 1) as [_ | Hgt]; [reflexivity | lia].
  - exists (report data m v). split; [reflexivity |]. intros out2.
    unfold process_data.
    destruct (Z.leb_spec count 1) as [Hle | _]; [lia |].
    unfold bind, defined, printf, ret. simpl.
    rewrite Hm. simpl. rewrite Hv. unfold report. simpl.
    repeat rewrite <- app_assoc. reflexivity.
Qed.

Lemma process_data_twice_witness :
  exists printed : stdout,
    report (mkDataSet 7 [1; 2; 3] 0 0) 2 1 = [] ++ printed
    /\ forall out2 : stdout,
        process_data Libm.pow_2_3 (mkDataSet 7 [1; 2; 3] 2 1) 3 out2
        = Some (mkDataSet 7 [1; 2; 3] 2 1, out2 ++ printed).
Proof.
  apply (process_data_twice Libm.pow_2_3 (mkDataSet 7 [1; 2; 3] 0 0) _ 3%Z []).
  reflexivity.
Defined.

(** X7: when [process_data] is called with [count >= 2] and returns, the
    [DataSet] holds the arithmetic mean of its first [count] elements and,
    for a [pow] with an exact square, their sample variance around that
    mean, and the last line printed is the status of that variance. *)
Theorem process_data_stores_statistics :
  forall (pow : float -> float -> float) (data d : DataSet) (count : Z)
         (out out' : stdout),
    Libm.exact_square pow ->
    (2 <= count <= CInt.INT_MAX)%Z ->
    process_data pow data count out = Some (d, out') ->
    average d = arithmetic_mean (prefix (values d) count)
    /\ variance d = sample_variance (average d) (prefix (values d) count)
    /\ last out' (Printf EmptyString []) = Printf (classify (variance d)) [].
Proof.
  intros pow data d count out out' Hsq Hcount H.
  destruct (process_data_cases _ _ _ _ _ _ H)
    as [[Hle _] | [_ [m [v [Hm [Hv [-> ->]]]]]]]; [lia |].
  assert (Hlen : (count <= Z.of_nat (List.length (values data)))%Z).
  { destruct (Z_le_gt_dec count (Z.of_nat (List.length (values data))))
      as [| Hgt]; [assumption | exfalso].
    rewrite calculate_mean_past_end in Hm by lia. discriminate. }
  simpl.
  rewrite calculate_mean_defined in Hm by lia.
  rewrite calculate_variance_defined in Hv by lia.
  rewrite (pow_sum_squared_deviations pow m _ Hsq) in Hv.
  unfold CInt.sub in Hv. rewrite CIntFacts.wrap_in_range in Hv
    by (unfold CInt.in_range, CInt.INT_MIN, CInt.INT_MAX in *; lia).
  injection Hm as <-. injection Hv as <-.
  unfold arithmetic_mean, sample_variance, sum_squared_deviations.
  rewrite prefix_length by lia.
  split; [reflexivity |]. split; [reflexivity |].
  unfold report.
  match goal with
  | |- last (?o ++ [?a; ?b; ?c; ?e]) _ = _ =>
      change (o ++ [a; b; c; e]) with (o ++ ([a; b; c] ++ [e]))
  end.
  rewrite app_assoc. apply last_last.
Qed.

Lemma process_data_stores_statistics_witness :
  average (mkDataSet 7 [1; 2; 3] 2 1) = arithmetic_mean (prefix [1; 2; 3] 3)
  /\ variance (mkDataSet 7 [1; 2; 3] 2 1)
     = sample_variance 2 (prefix [1; 2; 3] 3)
  /\ last (report (mkDataSet 7 [1; 2; 3] 0 0) 2 1) (Printf EmptyString [])
     = Printf (classify 1) [].
Proof.
  apply (process_data_stores_statistics Libm.pow_2_3
           (mkDataSet 7 [1; 2; 3] 0 0) (mkDataSet 7 [1; 2; 3] 2 1) 3%Z []
           (report (mkDataSet 7 [1; 2; 3] 0 0) 2 1) pow_2_3_exact_square).
  - unfold CInt.INT_MAX. lia.
  - reflexivity.
Defined.

(** *** [main] *)

Lemma main_loop_steps out : main_loop 0 out = Some (tt, out ++ steps).
Proof.
  rewrite main_loop_equation_1. simpl. unfold bind, printf.
  rewrite main_loop_equation_1. simpl. unfold bind, printf.
  rewrite main_loop_equation_1. simpl. unfold bind, printf.
  rewrite main_loop_equation_1. simpl. unfold ret, steps.
  repeat rewrite <- app_assoc. reflexivity.
Qed.

(** X8: [main] returns 0 and prints the four lines of [process_data] for
    the sample, with the mean 12.6, and then the three lines of its loop,
    whatever the two fields of [myData] it leaves unassigned hold: they are
    written before they are read. *)
Theorem main_ignores_unassigned_fields :
  forall pow : float -> float -> float,
  exists v : float,
    calculate_variance pow sample_values sample_count 12.6 = Some v
    /\ forall (average0 variance0 : float) (out : stdout),
        main pow average0 variance0 out
        = Some (0%Z,
                out ++ report (mkDataSet 101 sample_values 0 0) 12.6 v
                    ++ steps).
Proof.
  intros pow.
  destruct (calculate_variance pow sample_values sample_count 12.6)
    as [v |] eqn:Hv.
  - exists v. split; [reflexivity |]. intros average0 variance0 out.
    assert (Hm : calculate_mean sample_values sample_count = Some 12.6)
      by reflexivity.
    unfold main, process_data.
    change (sample_count <=? 1)%Z with false.
    unfold bind, defined. simpl values. rewrite Hm. simpl average.
    rewrite Hv. unfold printf, ret. rewrite main_loop_steps.
    unfold report. simpl. repeat rewrite <- app_assoc. reflexivity.
  - exfalso.
    apply (calculate_variance_within pow sample_values sample_count 12.6);
      [unfold sample_count, sample_values; simpl; lia | exact Hv].
Qed.

End StatisticsExtra.

(** * Further properties of the calculator *)

Module CalculatorExtra.

Import Stdio example CalculatorSpec CalculatorFacts.

(** *** [factorial] *)

Lemma product_upto_grows (k : nat) :
  (13 <= k)%nat -> CInt.INT_MAX < product_upto k.
Proof.
  induction 1 as [| k Hk IH].
  - vm_compute. reflexivity.
  - change (product_upto (S k)) with (Z.of_nat (S k) * product_upto k).
    unfold CInt.INT_MAX in *. nia.
Qed.

(** X9: for every [int] [n >= 0], [factorial n] is the product
    [1 * 2 * ... * n] reduced to an [int]; it is that product itself
    exactly when [n <= 12]. *)
Theorem factorial_is_product :
  forall n : Z,
    0 <= n <= CInt.INT_MAX ->
    factorial n = CInt.wrap (product_upto (Z.to_nat n))
    /\ (factorial n = product_upto (Z.to_nat n) <-> n <= 12).
Proof.
  intros n Hn. split.
  - rewrite <- (Z2Nat.id n) at 1 by lia.
    apply factorial_wraps_product. lia.
  - split.
    + intros H. destruct (Z_le_gt_dec n 12) as [| Hgt]; [assumption |].
      exfalso.
      pose proof (product_upto_grows (Z.to_nat n) ltac:(lia)) as Hbig.
      pose proof (factorial_in_range n) as [_ Hmax]. lia.
    + intros H. apply factorial_exact. lia.
Qed.

Lemma factorial_is_product_witness :
  factorial 13 = CInt.wrap (product_upto (Z.to_nat 13))
  /\ (factorial 13 = product_upto (Z.to_nat 13) <-> 13 <= 12).
Proof.
  apply (factorial_is_product 13). unfold CInt.INT_MAX. lia.
Defined.

(** X10: from 34 on, [factorial] returns 0: the product holds the factor
    [2^32]. *)
Theorem factorial_vanishes :
  forall n : Z, 34 <= n <= CInt.INT_MAX -> factorial n = 0.
Proof.
  intros n Hn.
  assert (H : forall k : nat, factorial (34 + Z.of_nat k) = 0
                              \/ CInt.INT_MAX < 34 + Z.of_nat k).
  { induction k as [| k IH].
    - left. vm_compute. reflexivity.
    - destruct (Z_le_gt_dec (34 + Z.of_nat (S k)) CInt.INT_MAX)
        as [Hle | Hgt]; [left | right; lia].
      destruct IH as [IH | IH]; [| lia].
      rewrite factorial_step by lia.
      replace (34 + Z.of_nat (S k) - 1) with (34 + Z.of_nat k) by lia.
      rewrite IH. unfold CInt.mul. rewrite Z.mul_0_r. reflexivity. }
  destruct (H (Z.to_nat (n - 34))) as [H0 | H0].
  - rewrite <- H0. f_equal. lia.
  - lia.
Qed.

Lemma factorial_vanishes_witness : factorial 40 = 0.
Proof.
  apply (factorial_vanishes 40). unfold CInt.INT_MAX. lia.
Defined.

(** *** [is_prime] *)

(** A number above 1 that is not prime has a divisor from 2 on whose square
    it reaches. *)
Lemma composite_small_divisor num :
  1 < num -> ~ prime num ->
  exists d, 2 <= d /\ d * d <= num /\ Z.rem num d = 0.
Proof.
  intros Hnum Hnot.
  destruct (not_prime_divide num Hnum Hnot) as [n [Hn [q Hq]]].
  assert (Hq2 : 2 <= q) by nia.
  destruct (Z_le_gt_dec (n * n) num) as [Hle | Hgt].
  - exists n. split; [lia |]. split; [exact Hle |].
    subst num. apply Z.rem_mul. lia.
  - exists q. split; [exact Hq2 |]. split; [nia |].
    subst num. rewrite Z.mul_comm. apply Z.rem_mul. lia.
Qed.

Lemma prime_no_divisor num : 2 <= num -> (prime num <-> no_divisor num).
Proof.
  intros Hnum. split.
  - intros Hp i Hi Hsq Hrem.
    assert (Hdiv : (i | num)) by (apply Z.rem_divide; [lia | exact Hrem]).
    destruct Hp as [_ Hrel].
    destruct (Hrel i ltac:(nia)) as [_ _ Hgcd].
    specialize (Hgcd i (Z.divide_refl i) Hdiv).
    apply Z.divide_1_r in Hgcd. lia.
  - intros Hnone. destruct (prime_dec num) as [| Hnot]; [assumption |].
    destruct (composite_small_divisor num ltac:(lia) Hnot)
      as [d [Hd [Hsq Hrem]]].
    exfalso. exact (Hnone d Hd Hsq Hrem).
Qed.

(** A divisor up to 46340 whose square [num] reaches is found by the loop,
    or a smaller one is: no square wraps before. *)
Lemma is_prime_loop_finds (fuel : nat) :
  forall num i d : Z,
    2 <= i <= d -> d <= sqrt_int_max ->
    d * d <= num -> num <= CInt.INT_MAX ->
    Z.rem num d = 0 ->
    (Z.to_nat (num - i) < fuel)%nat ->
    is_prime_loop fuel num i = Some 0.
Proof.
  induction fuel as [| fuel IH]; intros num i d Hi Hd Hsq Hmax Hrem Hfuel;
    [lia |].
  simpl. rewrite mul_small_square by lia. unfold CInt.rem.
  destruct (Z.leb_spec (i * i) num) as [_ | Hgt]; [| nia].
  destruct (Z.eqb_spec (Z.rem num i) 0) as [| Hne]; [reflexivity |].
  assert (Hid : i < d).
  { destruct (Z.eq_dec i d) as [-> | ]; [contradiction | lia]. }
  rewrite (succ_in_range i num) by nia.
  apply (IH num (i + 1) d); try assumption; try lia.
  assert (i < num) by nia. lia.
Qed.

Lemma is_prime_of_composite num :
  num <= CInt.INT_MAX -> ~ prime num -> is_prime num = Some 0.
Proof.
  intros Hmax Hnot. unfold is_prime.
  destruct (Z.ltb_spec num 2) as [| Hge]; [reflexivity |].
  destruct (composite_small_divisor num ltac:(lia) Hnot)
    as [d [Hd [Hsq Hrem]]].
  apply (is_prime_loop_finds (Z.to_nat num) num 2 d); try assumption.
  - lia.
  - unfold sqrt_int_max, CInt.INT_MAX in *. nia.
  - lia.
Qed.

Lemma is_prime_of_prime num :
  num < sqrt_int_max * sqrt_int_max -> prime num -> is_prime num = Some 1.
Proof.
  intros Hmax Hp.
  assert (Hnum : 2 <= num) by (destruct Hp; lia).
  destruct (is_prime_trial_division num Hmax) as [_ Hhigh].
  apply (proj1 (Hhigh Hnum)), prime_no_divisor; assumption.
Qed.

(** X11: on every [int] [is_prime] returns, and returns 0 or 1: the loop
    ends also where the square [i * i] wraps. *)
Theorem is_prime_total :
  forall num : Z,
    CInt.in_range num ->
    is_prime num = Some 0 \/ is_prime num = Some 1.
Proof.
  intros num H.
  destruct (is_prime_returns num H) as [r [Hr [-> | ->]]]; auto.
Qed.

Lemma is_prime_total_witness :
  is_prime 91 = Some 0 \/ is_prime 91 = Some 1.
Proof.
  apply (is_prime_total 91).
  unfold CInt.in_range, CInt.INT_MIN, CInt.INT_MAX. lia.
Defined.

(** X12: below [46340 * 46340 = 2147395600], [is_prime] returns 1 exactly
    on the prime numbers, and 0 on the other integers. *)
Theorem is_prime_decides_primality :
  forall num : Z,
    num < sqrt_int_max * sqrt_int_max ->
    (is_prime num = Some 1 <-> prime num)
    /\ (is_prime num = Some 0 <-> ~ prime num).
Proof.
  intros num Hmax.
  assert (Hint : num <= CInt.INT_MAX)
    by (unfold sqrt_int_max, CInt.INT_MAX in *; lia).
  split; split.
  - intros H. destruct (prime_dec num) as [| Hnot]; [assumption |].
    rewrite (is_prime_of_composite num Hint Hnot) in H. discriminate.
  - apply is_prime_of_prime. exact Hmax.
  - intros H Hp. rewrite (is_prime_of_prime num Hmax Hp) in H. discriminate.
  - apply is_prime_of_composite. exact Hint.
Qed.

Lemma is_prime_decides_primality_witness :
  (is_prime 97 = Some 1 <-> prime 97)
  /\ (is_prime 97 = Some 0 <-> ~ prime 97).
Proof.
  apply (is_prime_decides_primality 97).
  unfold sqrt_int_max. lia.
Defined.

(** X13: on every [int], also where the square wraps, [is_prime] returns 0
    on a number that is not prime: a number it reports as prime is prime. *)
Theorem is_prime_rejects_composites :
  forall num : Z,
    num <= CInt.INT_MAX ->
    (~ prime num -> is_prime num = Some 0)
    /\ (is_prime num = Some 1 -> prime num).
Proof.
  intros num Hmax. split.
  - apply is_prime_of_composite. exact Hmax.
  - intros H. destruct (prime_dec num) as [| Hnot]; [assumption |].
    rewrite (is_prime_of_composite num Hmax Hnot) in H. discriminate.
Qed.

Lemma is_prime_rejects_composites_witness :
  (~ prime 2147483646 -> is_prime 2147483646 = Some 0)
  /\ (is_prime 2147483646 = Some 1 -> prime 2147483646).
Proof.
  apply (is_prime_rejects_composites 2147483646).
  unfold CInt.INT_MAX. lia.
Defined.

(** *** [calculate] *)

Lemma app_one_neq {A : Type} (l : list A) (x : A) : l ++ [x] <> l.
Proof.
  intros H. apply (f_equal (@List.length A)) in H.
  rewrite length_app in H. simpl in H. lia.
Qed.

(** X14: [calculate] prints nothing exactly when the operator is one of
    [+ - * / ^] and, for [/], the divisor is not zero; in every other case
    it returns 0 and prints one message, the error of the division by zero
    for [/] and the error of the invalid operator otherwise. *)
Theorem calculate_silent :
  forall (pow : float -> float -> float) (a b : float) (op : ascii)
         (out : stdout),
    ((exists r : float, calculate pow a b op out = Some (r, out))
     <-> (In op operators /\ (op = "/"%char -> CDouble.ne b 0 = true)))
    /\ (~ (In op operators /\ (op = "/"%char -> CDouble.ne b 0 = true)) ->
        calculate pow a b op out
        = Some (0%float,
                out ++ [Printf (if (op =? "/")%char then division_by_zero
                                else invalid_operator) []])).
Proof.
  intros pow a b op out.
  assert (Herr : ~ (In op operators
                    /\ (op = "/"%char -> CDouble.ne b 0 = true)) ->
                 calculate pow a b op out
                 = Some (0%float,
                         out ++ [Printf (if (op =? "/")%char
                                         then division_by_zero
                                         else invalid_operator) []])).
  { intros Hnot.
    destruct (Ascii.eqb_spec op "/") as [-> | Hop].
    - apply calculate_division_by_zero.
      destruct (CDouble.ne b 0) eqn:Hb; [| reflexivity].
      exfalso. apply Hnot. split; [unfold operators; simpl; tauto | auto].
    - apply calculate_invalid_operator. intros Hin.
      apply Hnot. split; [exact Hin | intros ->; contradiction]. }
  split; [| exact Herr]. split.
  - intros [r Hr].
    destruct (in_dec ascii_dec op operators) as [Hin | Hnot].
    + split; [exact Hin |]. intros ->.
      destruct (CDouble.ne b 0) eqn:Hb; [reflexivity |].
      rewrite calculate_division_by_zero in Hr by assumption.
      injection Hr as _ Hout. exfalso. exact (app_one_neq _ _ Hout).
    + rewrite calculate_invalid_operator in Hr by assumption.
      injection Hr as _ Hout. exfalso. exact (app_one_neq _ _ Hout).
  - intros [Hin Hdiv]. unfold operators in Hin. simpl in Hin.
    destruct Hin as [<- | [<- | [<- | [<- | [<- | []]]]]];
      try (eexists; reflexivity).
    unfold calculate. simpl. rewrite (Hdiv eq_refl).
    eexists. reflexivity.
Qed.

Lemma calculate_silent_witness :
  (exists r : float, calculate Libm.pow_2_3 1 2 "/" [] = Some (r, []))
  /\ calculate Libm.pow_2_3 1 0 "/" []
     = Some (0%float, [Printf division_by_zero []])
  /\ calculate Libm.pow_2_3 1 2 "%" []
     = Some (0%float, [Printf invalid_operator []]).
Proof.
  split; [| split].
  - apply (proj2 (proj1 (calculate_silent Libm.pow_2_3 1 2 "/" []))).
    split.
    + unfold operators. simpl. tauto.
    + intros _. reflexivity.
  - apply (proj2 (calculate_silent Libm.pow_2_3 1 0 "/" [])).
    intros [_ H]. specialize (H eq_refl). discriminate H.
  - apply (proj2 (calculate_silent Libm.pow_2_3 1 2 "%" [])).
    intros [H _]. unfold operators in H. simpl in H.
    destruct H as [H | [H | [H | [H | [H | H]]]]];
      try discriminate H; exact H.
Defined.

(** X15: the test [b != 0] is the comparison of doubles: a divisor [-0.0]
    is zero and gives the error and 0, a divisor that is not a number
    passes the test and [calculate] returns the quotient, printing
    nothing. *)
Theorem calculate_division_guard :
  forall (pow : float -> float -> float) (a : float) (out : stdout),
    calculate pow a (-0)%float "/" out
    = Some (0%float, out ++ [Printf division_by_zero []])
    /\ calculate pow a nan "/" out = Some ((a / nan)%float, out).
Proof.
  intros pow a out. split.
  - apply calculate_division_by_zero. reflexivity.
  - reflexivity.
Qed.

(** *** [main] *)

Lemma main_prime pow num rest out :
  main pow (TInt 2 :: TInt num :: rest) out
  = match is_prime num with
    | Some p =>
        Some (0, out ++ menu
                 ++ [ Printf "Enter a number: " [];
                      if negb (p =? 0)
                      then Printf ("%d is a prime number." ++ nl) [AInt num]
                      else Printf ("%d is not a prime number." ++ nl)
                             [AInt num] ])
    | None => None
    end.
Proof.
  unfold main, bind, printf, defined, ret, menu. simpl.
  destruct (is_prime num) as [p |]; [| reflexivity].
  destruct (negb (p =? 0)); simpl; repeat rewrite <- app_assoc; reflexivity.
Qed.

Lemma main_arithmetic pow d1 d2 op rest out r printed :
  calculate pow d1 d2 op [] = Some (r, printed) ->
  main pow (TInt 3 :: TDouble d1 :: TChar op :: TDouble d2 :: rest) out
  = Some (0, out ++ menu ++ arithmetic_prompts ++ printed
             ++ [ Printf ("Result: %.2f %c %.2f = %.2f" ++ nl)
                    [ADouble d1; AChar op; ADouble d2; ADouble r] ]).
Proof.
  intros Hc.
  destruct (calculate_independent pow d1 d2 op) as [r' [printed' Hind]].
  rewrite (Hind []) in Hc. injection Hc as -> ->.
  unfold main, bind, printf, defined, ret, menu, arithmetic_prompts. simpl.
  rewrite Hind. repeat rewrite <- app_assoc. reflexivity.
Qed.

Lemma main_invalid pow choice rest out :
  choice <> 1 -> choice <> 2 -> choice <> 3 ->
  main pow (TInt choice :: rest) out
  = Some (0, out ++ menu ++ [Printf ("Invalid choice!" ++ nl) []]).
Proof.
  intros H1 H2 H3.
  unfold main, bind, printf, defined, ret, menu. simpl.
  destruct (Z.eqb_spec choice 1); [contradiction |].
  destruct (Z.eqb_spec choice 2); [contradiction |].
  destruct (Z.eqb_spec choice 3); [contradiction |].
  repeat rewrite <- app_assoc. reflexivity.
Qed.

(** X16: whenever [main] returns, on whatever input, it returns 0, and what
    it has printed is the output before, the menu, and further lines:
    errors change neither the exit status nor what was printed. *)
Theorem main_exit_status :
  forall (pow : float -> float -> float) (stdin : list token)
         (out out' : stdout) (r : Z),
    main pow stdin out = Some (r, out') ->
    r = 0 /\ exists printed : stdout, out' = out ++ menu ++ printed.
Proof.
  intros pow stdin out out' r H.
  destruct stdin as [| [choice | d | c] rest];
    try (unfold main, bind, printf, defined, ret in H; simpl in H;
         discriminate).
  destruct (Z.eq_dec choice 1) as [-> | H1].
  { destruct rest as [| [num | d | c] rest];
      try (unfold main, bind, printf, defined, ret in H; simpl in H;
           discriminate).
    rewrite main_factorial in H. injection H as <- <-.
    split; [reflexivity | eexists; reflexivity]. }
  destruct (Z.eq_dec choice 2) as [-> | H2].
  { destruct rest as [| [num | d | c] rest];
      try (unfold main, bind, printf, defined, ret in H; simpl in H;
           discriminate).
    rewrite main_prime in H.
    destruct (is_prime num) as [p |]; [| discriminate].
    injection H as <- <-.
    split; [reflexivity | eexists; reflexivity]. }
  destruct (Z.eq_dec choice 3) as [-> | H3].
  { destruct rest as [| [z | d1 | c] [| [z' | d' | op] [| [z2 | d2 | c2] rest]]];
      try (unfold main, bind, printf, defined, ret in H; simpl in H;
           discriminate).
    destruct (calculate_independent pow d1 d2 op) as [r' [printed Hind]].
    rewrite (main_arithmetic pow d1 d2 op rest out r' printed) in H
      by (rewrite Hind; reflexivity).
    injection H as <- <-.
    split; [reflexivity | eexists; reflexivity]. }
  rewrite main_invalid in H by assumption.
  injection H as <- <-.
  split; [reflexivity | eexists; reflexivity].
Qed.

Lemma main_exit_status_witness :
  0 = 0 /\ exists printed : stdout,
             menu ++ [Printf ("Invalid choice!" ++ nl) []]
             = [] ++ menu ++ printed.
Proof.
  apply (main_exit_status Libm.pow_2_3 [TInt 9] []).
  reflexivity.
Defined.

(** X17: a choice other than 1, 2 or 3 makes [main] print the menu and
    the line of the invalid choice, read nothing more, and return 0. *)
Theorem main_invalid_choice :
  forall (pow : float -> float -> float) (choice : Z) (rest : list token)
         (out : stdout),
    ~ In choice [1; 2; 3] ->
    main pow (TInt choice :: rest) out
    = Some (0, out ++ menu ++ [Printf ("Invalid choice!" ++ nl) []]).
Proof.
  intros pow choice rest out H.
  apply main_invalid; intros ->; apply H; simpl; tauto.
Qed.

Lemma main_invalid_choice_witness :
  main Libm.pow_2_3 [TInt 0; TInt 5] []
  = Some (0, [] ++ menu ++ [Printf ("Invalid choice!" ++ nl) []]).
Proof.
  apply (main_invalid_choice Libm.pow_2_3 0 [TInt 5] []).
  simpl. lia.
Defined.

(** X18: with the choice 2 and an [int] below [46340 * 46340], [main]
    prints that the number is prime when it is prime, and that it is not
    when it is not. *)
Theorem main_reports_primality :
  forall (pow : float -> float -> float) (num : Z) (rest : list token)
         (out : stdout),
    num < sqrt_int_max * sqrt_int_max ->
    main pow (TInt 2 :: TInt num :: rest) out
    = Some (0, out ++ menu
               ++ [ Printf "Enter a number: " [];
                    if prime_dec num
                    then Printf ("%d is a prime number." ++ nl) [AInt num]
                    else Printf ("%d is not a prime number." ++ nl)
                           [AInt num] ]).
Proof.
  intros pow num rest out H. rewrite main_prime.
  destruct (prime_dec num) as [Hp | Hnot].
  - rewrite (is_prime_of_prime num H Hp). reflexivity.
  - rewrite (is_prime_of_composite num) by
      (try assumption; unfold sqrt_int_max, CInt.INT_MAX in *; lia).
    reflexivity.
Qed.

Lemma main_reports_primality_witness :
  main Libm.pow_2_3 [TInt 2; TInt 91] []
  = Some (0, [] ++ menu
             ++ [ Printf "Enter a number: " [];
                  if prime_dec 91
                  then Printf ("%d is a prime number." ++ nl) [AInt 91]
                  else Printf ("%d is not a prime number." ++ nl)
                         [AInt 91] ]).
Proof.
  apply (main_reports_primality Libm.pow_2_3 91 [] []).
  unfold sqrt_int_max. lia.
Defined.

(** X19: with the choice 1 and a number from 0 to 12, [main] prints the
    number and the product [1 * 2 * ... * n], and no error. *)
Theorem main_prints_factorial :
  forall (pow : float -> float -> float) (num : Z) (rest : list token)
         (out : stdout),
    0 <= num <= 12 ->
    main pow (TInt 1 :: TInt num :: rest) out
    = Some (0, out ++ menu
               ++ [ Printf "Enter a number: " [];
                    Printf ("Factorial of %d is %d" ++ nl)
                      [AInt num; AInt (product_upto (Z.to_nat num))] ]).
Proof.
  intros pow num rest out H. rewrite main_factorial.
  destruct (Z.ltb_spec num 0); [lia |].
  rewrite factorial_exact by lia. reflexivity.
Qed.

Lemma main_prints_factorial_witness :
  main Libm.pow_2_3 [TInt 1; TInt 5] []
  = Some (0, [] ++ menu
             ++ [ Printf "Enter a number: " [];
                  Printf ("Factorial of %d is %d" ++ nl)
                    [AInt 5; AInt (product_upto (Z.to_nat 5))] ]).
Proof.
  apply (main_prints_factorial Libm.pow_2_3 5 [] []). lia.
Defined.

(** X20: with the choice 3, [main] reads the first number, the operator
    and the second number, prints what [calculate] prints on them and then
    the line of the result with the value [calculate] returns; after a
    division by zero that line shows 0, below the error. *)
Theorem main_prints_result :
  forall (pow : float -> float -> float) (d1 d2 : float) (op : ascii)
         (rest : list token) (out : stdout),
    (forall (r : float) (printed : stdout),
        calculate pow d1 d2 op [] = Some (r, printed) ->
        main pow (TInt 3 :: TDouble d1 :: TChar op :: TDouble d2 :: rest) out
        = Some (0, out ++ menu ++ arithmetic_prompts ++ printed
                   ++ [ Printf ("Result: %.2f %c %.2f = %.2f" ++ nl)
                          [ADouble d1; AChar op; ADouble d2; ADouble r] ]))
    /\ main pow (TInt 3 :: TDouble d1 :: TChar "/" :: TDouble 0 :: rest) out
       = Some (0, out ++ menu ++ arithmetic_prompts
                  ++ [ Printf division_by_zero [];
                       Printf ("Result: %.2f %c %.2f = %.2f" ++ nl)
                         [ADouble d1; AChar "/"; ADouble 0; ADouble 0] ]).
Proof.
  intros pow d1 d2 op rest out. split.
  - intros r printed. apply main_arithmetic.
  - rewrite (main_arithmetic pow d1 0 "/" rest out 0 [Printf division_by_zero []]);
      reflexivity.
Qed.

Lemma main_prints_result_witness :
  main Libm.pow_2_3 [TInt 3; TDouble 2; TChar "^"; TDouble 3] []
  = Some (0, [] ++ menu ++ arithmetic_prompts ++ []
             ++ [ Printf ("Result: %.2f %c %.2f = %.2f" ++ nl)
                    [ADouble 2; AChar "^"; ADouble 3; ADouble 8] ]).
Proof.
  apply (proj1 (main_prints_result Libm.pow_2_3 2 3 "^" [] []) 8%float []).
  reflexivity.
Defined.

End CalculatorExtra.
